(** * dm3_image_utils: marshaling DM3 tag trees to and from numpy arrays

    A shallow embedding of [dm3_image_utils.py].  Python values are modelled
    as follows:
    - a numpy array is a record of its dtype, its shape and its flat element
      list in row-major (C) order; each element is held as its stored bit
      pattern (a complex element as its real and imaginary bit patterns);
    - the tag tree produced by the container codec ([parse_dm3]) is the
      inductive [tag]; a Python dict is an association list in insertion
      order, a Python list is a list, [array.array] keeps its typecode and its
      items (bit patterns), a [structarray] keeps its field typecodes and its
      raw bytes;
    - a raised exception is the [Err] branch of [result]. *)

From Stdlib Require Import ZArith List String Ascii Bool Lia.
From Stdlib Require Import Strings.Byte.
Import ListNotations.
Open Scope Z_scope.

(** ** Python exceptions and the error monad *)

Inductive assert_site := AssertDType | AssertPixelDepth.

Inductive pyerr :=
| KeyError
| IndexError
| TypeError
| AttributeError
| ValueError
| StopIteration
| NameError
| OSError
| UnicodeDecodeError
| CodecError
| AssertionError (site : assert_site).

Inductive result (A : Type) := Ok (a : A) | Err (e : pyerr).
Arguments Ok {A} a.
Arguments Err {A} e.

Definition bind {A B} (m : result A) (k : A -> result B) : result B :=
  match m with Ok a => k a | Err e => Err e end.

Notation "x <- m ;; k" := (bind m (fun x => k))
  (at level 61, m at next level, right associativity).

Definition of_option {A} (e : pyerr) (o : option A) : result A :=
  match o with Some a => Ok a | None => Err e end.

Definition py_assert (site : assert_site) (b : bool) : result unit :=
  if b then Ok tt else Err (AssertionError site).

(** ** numpy dtypes *)

Inductive dtype :=
| Int8 | UInt8 | Int16 | UInt16 | Int32 | UInt32 | Int64 | UInt64
| Float16 | Float32 | Float64 | Complex64 | Complex128 | Bool_.

Definition dtype_eqb (a b : dtype) : bool :=
  match a, b with
  | Int8, Int8 | UInt8, UInt8 | Int16, Int16 | UInt16, UInt16
  | Int32, Int32 | UInt32, UInt32 | Int64, Int64 | UInt64, UInt64
  | Float16, Float16 | Float32, Float32 | Float64, Float64
  | Complex64, Complex64 | Complex128, Complex128 | Bool_, Bool_ => true
  | _, _ => false
  end.

(** [dtype.itemsize] *)
Definition itemsize (t : dtype) : nat :=
  match t with
  | Int8 | UInt8 | Bool_ => 1
  | Int16 | UInt16 | Float16 => 2
  | Int32 | UInt32 | Float32 => 4
  | Int64 | UInt64 | Float64 | Complex64 => 8
  | Complex128 => 16
  end.

(** [dtype.char] *)
Definition dtype_char (t : dtype) : ascii :=
  match t with
  | Int8 => "b" | UInt8 => "B" | Int16 => "h" | UInt16 => "H"
  | Int32 => "i" | UInt32 => "I" | Int64 => "l" | UInt64 => "L"
  | Float16 => "e" | Float32 => "f" | Float64 => "d"
  | Complex64 => "F" | Complex128 => "D" | Bool_ => "?"
  end.

(** The dtype numpy builds for [np.asarray(arr, dtype=arr.typecode)], for
    the typecodes [array.array] accepts (LP64 platform). *)
Definition dtype_of_typecode (c : ascii) : option dtype :=
  if ascii_dec c "b" then Some Int8
  else if ascii_dec c "B" then Some UInt8
  else if ascii_dec c "h" then Some Int16
  else if ascii_dec c "H" then Some UInt16
  else if ascii_dec c "i" then Some Int32
  else if ascii_dec c "I" then Some UInt32
  else if ascii_dec c "l" then Some Int64
  else if ascii_dec c "L" then Some UInt64
  else if ascii_dec c "q" then Some Int64
  else if ascii_dec c "Q" then Some UInt64
  else if ascii_dec c "f" then Some Float32
  else if ascii_dec c "d" then Some Float64
  else None.

(** Item size of an [array.array] typecode (LP64 platform). *)
Definition typecode_size (c : ascii) : nat :=
  match dtype_of_typecode c with
  | Some t => itemsize t
  | None => 2  (* 'u': a wchar_t code unit on the platforms the codec targets *)
  end.

Definition is_complex (t : dtype) : bool :=
  match t with Complex64 | Complex128 => true | _ => false end.

(** ** numpy arrays *)

Inductive elem := EScalar (bits : Z) | EComplex (re im : Z).

Record ndarray := mk_ndarray {
  arr_dtype : dtype;
  arr_shape : list nat;
  arr_data : list elem
}.

Definition prod_shape (s : list nat) : nat := fold_right Nat.mul 1%nat s.

Definition elem_ok (t : dtype) (e : elem) : Prop :=
  match e with
  | EScalar b => is_complex t = false /\ 0 <= b < 2 ^ (8 * Z.of_nat (itemsize t))
  | EComplex re im =>
      is_complex t = true /\
      0 <= re < 2 ^ (4 * Z.of_nat (itemsize t)) /\
      0 <= im < 2 ^ (4 * Z.of_nat (itemsize t))
  end.

(** A well-formed array: as many elements as its shape says, each one a bit
    pattern of the dtype's width. *)
Definition wf_ndarray (a : ndarray) : Prop :=
  List.length (arr_data a) = prod_shape (arr_shape a) /\
  Forall (elem_ok (arr_dtype a)) (arr_data a).

(** ** Little-endian byte images *)

Definition byte_of_Z (z : Z) : byte :=
  match Byte.of_N (Z.to_N (z mod 256)) with Some b => b | None => x00 end.

Definition Z_of_byte (b : byte) : Z := Z.of_N (Byte.to_N b).

(** The [n] bytes of the bit pattern [z], least significant first. *)
Fixpoint le_bytes (n : nat) (z : Z) : list byte :=
  match n with
  | O => []
  | S n' => byte_of_Z z :: le_bytes n' (z / 256)
  end.

Fixpoint le_value (bs : list byte) : Z :=
  match bs with
  | [] => 0
  | b :: r => Z_of_byte b + 256 * le_value r
  end.

(** ** The tag tree *)

#[local] Set Warnings "-register-all".

Inductive tag :=
| TDict (kvs : list (string * tag))
| TList (xs : list tag)
| TArray (tc : ascii) (items : list Z)
| TStruct (tcs : list ascii) (raw : list byte)
| TInt (z : Z)
| TFloat (bits : Z)
| TStr (s : list Z)
| TBool (b : bool)
| TNone.

(** Lookup of a key in a dict (keys are unique in a Python dict). *)
Fixpoint assoc_get (k : string) (kvs : list (string * tag)) : option tag :=
  match kvs with
  | [] => None
  | (k', v) :: r => if String.eqb k' k then Some v else assoc_get k r
  end.

(** [d[k] = v] *)
Fixpoint assoc_set (k : string) (v : tag) (kvs : list (string * tag))
  : list (string * tag) :=
  match kvs with
  | [] => [(k, v)]
  | (k', v') :: r =>
      if String.eqb k' k then (k', v) :: r else (k', v') :: assoc_set k v r
  end.

(** [d[k]] *)
Definition getitem (d : tag) (k : string) : result tag :=
  match d with
  | TDict kvs => of_option KeyError (assoc_get k kvs)
  | _ => Err TypeError
  end.

(** [d.get(k, default)] *)
Definition get_default (d : tag) (k : string) (default : tag) : result tag :=
  match d with
  | TDict kvs =>
      match assoc_get k kvs with Some v => Ok v | None => Ok default end
  | _ => Err AttributeError
  end.

(** [k in d] *)
Definition contains (d : tag) (k : string) : result bool :=
  match d with
  | TDict kvs => Ok (match assoc_get k kvs with Some _ => true | None => false end)
  | _ => Err TypeError  (* only reached on a dict: it was subscripted by a key before *)
  end.

(** Bit pattern of the IEEE double nearest a small non-negative integer
    ([n < 2^53], where the conversion is exact). *)
Definition double_of_small_int (n : Z) : Z :=
  if Z.eqb n 0 then 0
  else let e := Z.log2 n in
       Z.lor (Z.shiftl (e + 1023) 52) (n * 2 ^ (52 - e) - 2 ^ 52).

(** [v == n] for a Python value [v] and an integer [n] with [0 <= n < 2^53]. *)
Definition py_eq_int (v : tag) (n : Z) : bool :=
  match v with
  | TInt z => Z.eqb z n
  | TBool b => Z.eqb (if b then 1 else 0) n
  | TFloat bits =>
      Z.eqb bits (double_of_small_int n) ||
      (Z.eqb n 0 && Z.eqb bits (2 ^ 63))
  | _ => false
  end.

(** Python truthiness ([bool(v)]); a [structarray] object defines no length
    and is always true. *)
Definition py_truthy (v : tag) : bool :=
  match v with
  | TDict kvs => match kvs with [] => false | _ => true end
  | TList xs => match xs with [] => false | _ => true end
  | TArray _ items => match items with [] => false | _ => true end
  | TStruct _ _ => true
  | TInt z => negb (Z.eqb z 0)
  | TFloat bits => negb (Z.eqb (Z.land bits (2 ^ 63 - 1)) 0)
  | TStr s => match s with [] => false | _ => true end
  | TBool b => b
  | TNone => false
  end.

(** ** TypeRegistry: [dm_image_dtypes], in declaration order *)

Definition dm_image_dtypes : list (Z * (string * dtype)) :=
  [ (1, ("int16", Int16));
    (2, ("float32", Float32));
    (3, ("Complex64", Complex64));
    (6, ("uint8", Int8));
    (7, ("int32", Int32));
    (9, ("int8", Int8));
    (10, ("uint16", UInt16));
    (11, ("uint32", UInt32));
    (12, ("float64", Float64));
    (13, ("Complex128", Complex128));
    (14, ("Bool", Int8));
    (23, ("RGB", Int32)) ]%string.

Fixpoint code_get (code : Z) (tbl : list (Z * (string * dtype))) : option (string * dtype) :=
  match tbl with
  | [] => None
  | (k, v) :: r => if Z.eqb k code then Some v else code_get code r
  end.

(** [dm_image_dtypes[key]] for a Python value used as key: [True] and [1.0]
    hash and compare like [1]; lists and dicts are unhashable. *)
Definition dm_image_dtypes_getitem (key : tag) : result (string * dtype) :=
  match key with
  | TInt z => of_option KeyError (code_get z dm_image_dtypes)
  | TBool b => of_option KeyError (code_get (if b then 1 else 0) dm_image_dtypes)
  | TFloat bits =>
      of_option KeyError
        (match List.find (fun e => py_eq_int key (fst e)) dm_image_dtypes with
         | Some (_, v) => Some v
         | None => None
         end)
  | TList _ | TDict _ => Err TypeError
  | _ => Err KeyError
  end.

(** [next(k for k, v in dm_image_dtypes.items() if v[1] == t)]: the first
    code, in declaration order, whose element type is [t]. *)
Fixpoint first_code (t : dtype) (tbl : list (Z * (string * dtype))) : option Z :=
  match tbl with
  | [] => None
  | (k, (_, t')) :: r => if dtype_eqb t' t then Some k else first_code t r
  end.

Definition dm_type_of (t : dtype) : result Z :=
  of_option StopIteration (first_code t dm_image_dtypes).

(** ** StructuredArrayAdapter: [structarray_to_np_map] and its inverse *)

Definition structarray_to_np_map : list (list ascii * dtype) :=
  [ (["d"; "d"]%char, Complex128);
    (["f"; "f"]%char, Complex64) ].

Fixpoint typecodes_eqb (a b : list ascii) : bool :=
  match a, b with
  | [], [] => true
  | x :: a', y :: b' => (if ascii_dec x y then true else false) && typecodes_eqb a' b'
  | _, _ => false
  end.

Fixpoint structarray_lookup (tcs : list ascii) (m : list (list ascii * dtype)) : option dtype :=
  match m with
  | [] => None
  | (k, t) :: r => if typecodes_eqb k tcs then Some t else structarray_lookup tcs r
  end.

(** [np_to_structarray_map = {v: k for k, v in structarray_to_np_map.items()}] *)
Fixpoint np_to_structarray (t : dtype) (m : list (list ascii * dtype)) : option (list ascii) :=
  match m with
  | [] => None
  | (k, t') :: r => if dtype_eqb t' t then Some k else np_to_structarray t r
  end.

(** [bytes(nparr.data)]: the elements in C order, each one in native
    (little-endian) layout, the real field before the imaginary one. *)
Definition elem_bytes (t : dtype) (e : elem) : list byte :=
  match e with
  | EScalar b => le_bytes (itemsize t) b
  | EComplex re im =>
      le_bytes (Nat.div (itemsize t) 2) re ++ le_bytes (Nat.div (itemsize t) 2) im
  end.

Definition ndarray_bytes (a : ndarray) : list byte :=
  List.concat (map (elem_bytes (arr_dtype a)) (arr_data a)).

Fixpoint chunks (n : nat) (fuel : nat) (bs : list byte) : list (list byte) :=
  match fuel with
  | O => []
  | S f =>
      match bs with
      | [] => []
      | _ => firstn n bs :: chunks n f (skipn n bs)
      end
  end.

Definition elem_of_bytes (t : dtype) (c : list byte) : elem :=
  if is_complex t
  then EComplex (le_value (firstn (Nat.div (itemsize t) 2) c))
                (le_value (skipn (Nat.div (itemsize t) 2) c))
  else EScalar (le_value c).

(** [np.frombuffer(raw, dtype=t)]: a flat array; a buffer that is not a
    whole number of items is a [ValueError]. *)
Definition frombuffer (raw : list byte) (t : dtype) : result ndarray :=
  let w := itemsize t in
  if Nat.eqb (Nat.modulo (List.length raw) w) 0
  then Ok (mk_ndarray t [Nat.div (List.length raw) w]
             (map (elem_of_bytes t) (chunks w (List.length raw) raw)))
  else Err ValueError.

(** ** Python's ["utf-16"] codec, decoding direction

    A leading byte-order mark selects the byte order and is dropped; with no
    mark the native (little-endian) order is used.  An odd trailing byte or
    an unpaired surrogate is a [UnicodeDecodeError] ([None]).  Text is a list
    of code points. *)

Definition utf16_unit (big : bool) (b1 b2 : byte) : Z :=
  if big then Z_of_byte b1 * 256 + Z_of_byte b2
  else Z_of_byte b1 + 256 * Z_of_byte b2.

Fixpoint utf16_units (big : bool) (bs : list byte) : option (list Z) :=
  match bs with
  | [] => Some []
  | [_] => None
  | b1 :: b2 :: rest =>
      let u := utf16_unit big b1 b2 in
      if (55296 <=? u) && (u <=? 56319) then
        match rest with
        | b3 :: b4 :: rest' =>
            let u2 := utf16_unit big b3 b4 in
            if (56320 <=? u2) && (u2 <=? 57343)
            then option_map (cons (65536 + (u - 55296) * 1024 + (u2 - 56320)))
                            (utf16_units big rest')
            else None
        | _ => None
        end
      else if (56320 <=? u) && (u <=? 57343) then None
      else option_map (cons u) (utf16_units big rest)
  end.

Definition utf16_decode (bs : list byte) : option (list Z) :=
  match bs with
  | xff :: xfe :: rest => utf16_units false rest
  | xfe :: xff :: rest => utf16_units true rest
  | _ => utf16_units false bs
  end.

(** [a.tostring()] of an [array.array]: its items' native bytes. *)
Definition array_tostring (tc : ascii) (items : list Z) : list byte :=
  List.concat (map (le_bytes (typecode_size tc)) items).

(** ** MetadataNormalizer: [fix_strings] *)

Fixpoint fix_strings (d : tag) : result tag :=
  match d with
  | TDict kvs =>
      let fix go (kvs : list (string * tag)) : result (list (string * tag)) :=
        match kvs with
        | [] => Ok []
        | (k, v) :: r =>
            v' <- (if String.eqb k "Data" then Ok v else fix_strings v) ;;
            r' <- go r ;;
            Ok ((k, v') :: r')
        end in
      kvs' <- go kvs ;; Ok (TDict kvs')
  | TList xs =>
      let fix go (xs : list tag) : result (list tag) :=
        match xs with
        | [] => Ok []
        | v :: r => v' <- fix_strings v ;; r' <- go r ;; Ok (v' :: r')
        end in
      xs' <- go xs ;; Ok (TList xs')
  | TArray tc items =>
      match utf16_decode (array_tostring tc items) with
      | Some s => Ok (TStr s)
      | None => Err UnicodeDecodeError
      end
  | _ => Ok d
  end.

(** ** ImageMarshaler *)

Fixpoint mapM {A B} (f : A -> result B) (xs : list A) : result (list B) :=
  match xs with
  | [] => Ok []
  | x :: r => y <- f x ;; ys <- mapM f r ;; Ok (y :: ys)
  end.

(** [operator.index] of a Python value. *)
Definition as_int (v : tag) : result Z :=
  match v with
  | TInt z => Ok z
  | TBool b => Ok (if b then 1 else 0)
  | _ => Err TypeError
  end.

(** The integer value of an [array.array] item held as a bit pattern. *)
Definition array_item_value (tc : ascii) (z : Z) : Z :=
  let w := 8 * Z.of_nat (typecode_size tc) in
  let signed := existsb (fun c => if ascii_dec c tc then true else false)
                        ["b"; "h"; "i"; "l"; "q"]%char in
  if signed && (2 ^ (w - 1) <=? z) then z - 2 ^ w else z.

(** [seq[::-1]] *)
Definition py_reverse (v : tag) : result tag :=
  match v with
  | TList xs => Ok (TList (rev xs))
  | TArray tc items => Ok (TArray tc (rev items))
  | TStr s => Ok (TStr (rev s))
  | _ => Err TypeError
  end.

(** numpy's resolution of a requested shape for [size] elements: at most
    one [-1], inferred from the others; no other negative extent. *)
Definition resolve_shape (size : nat) (dims : list Z) : result (list nat) :=
  if existsb (fun z => z <? -1) dims then Err ValueError
  else
    match List.length (filter (Z.eqb (-1)) dims) with
    | O =>
        if Nat.eqb (prod_shape (map Z.to_nat dims)) size
        then Ok (map Z.to_nat dims) else Err ValueError
    | 1%nat =>
        let known := prod_shape (map Z.to_nat (filter (fun z => negb (z =? -1)) dims)) in
        if Nat.eqb known 0 then Err ValueError
        else if Nat.eqb (Nat.modulo size known) 0
        then Ok (map (fun z => if z =? -1 then Nat.div size known else Z.to_nat z) dims)
        else Err ValueError
    | _ => Err ValueError
    end.

(** [im.reshape(shape)] *)
Definition reshape (im : ndarray) (shape : tag) : result ndarray :=
  dims <- match shape with
          | TList xs => mapM as_int xs
          | TArray tc items => Ok (map (array_item_value tc) items)
          | _ => Err TypeError
          end ;;
  s <- resolve_shape (List.length (arr_data im)) dims ;;
  Ok (mk_ndarray (arr_dtype im) s (arr_data im)).

(** The [Data] dispatch of [imagedatadict_to_ndarray]: [None] when [Data] is
    neither an [array.array] nor a [structarray] ([im] stays [None]). *)
Definition decode_image_data (arr : tag) : result (option ndarray) :=
  match arr with
  | TArray tc items =>
      t <- of_option TypeError (dtype_of_typecode tc) ;;
      Ok (Some (mk_ndarray t [List.length items] (map EScalar items)))
  | TStruct tcs raw =>
      t <- of_option KeyError (structarray_lookup tcs structarray_to_np_map) ;;
      im <- frombuffer raw t ;;
      Ok (Some im)
  | _ => Ok None
  end.

Definition imagedatadict_to_ndarray (imdict : tag) : result ndarray :=
  arr <- getitem imdict "Data" ;;
  im <- decode_image_data arr ;;
  datatype <- getitem imdict "DataType" ;;
  entry <- dm_image_dtypes_getitem datatype ;;
  im <- of_option AttributeError im ;;
  _ <- py_assert AssertDType (dtype_eqb (snd entry) (arr_dtype im)) ;;
  pixeldepth <- getitem imdict "PixelDepth" ;;
  _ <- py_assert AssertPixelDepth
         (py_eq_int pixeldepth (Z.of_nat (itemsize (arr_dtype im)))) ;;
  dims <- getitem imdict "Dimensions" ;;
  rdims <- py_reverse dims ;;
  reshape im rdims.

(** A float32 bit pattern after CPython's conversion to a C [double] and
    back to a C [float] (the ["f"] format of [PyArg_Parse]): every value
    comes back unchanged except a signalling NaN, which comes back quiet
    (its quiet bit, bit 22, set; sign and payload kept). *)
Definition f32_through_double (b : Z) : Z :=
  if (Z.land (Z.shiftr b 23) 255 =? 255) && negb (Z.land b 8388607 =? 0)
  then Z.lor b 4194304 else b.

(** The item an [array.array] of typecode [tc] stores for a numpy scalar
    with bit pattern [b]: an item of typecode ["f"] goes through
    [f_setitem], which parses it as a C [float] via a [double]; the other
    typecodes keep the value. *)
Definition array_item_store (tc : ascii) (b : Z) : Z :=
  if ascii_dec tc "f" then f32_through_double b else b.

(** [array.array(typecode, items)] from numpy scalars: the array iterates
    its argument and stores each item through its typecode's setter. *)
Definition array_array (tc : ascii) (xs : list elem) : result tag :=
  match dtype_of_typecode tc with
  | None => Err ValueError
  | Some _ =>
      items <- mapM (fun e => match e with
                              | EScalar b => Ok (array_item_store tc b)
                              | EComplex _ _ => Err TypeError
                              end) xs ;;
      Ok (TArray tc items)
  end.

Definition ndarray_to_imagedatadict (nparr : ndarray) : result tag :=
  dm_type <- dm_type_of (arr_dtype nparr) ;;
  let ret := [ ("DataType", TInt dm_type);
               ("PixelDepth", TInt (Z.of_nat (itemsize (arr_dtype nparr))));
               ("Dimensions", TList (map (fun d => TInt (Z.of_nat d))
                                         (rev (arr_shape nparr)))) ]%string in
  match np_to_structarray (arr_dtype nparr) structarray_to_np_map with
  | Some types => Ok (TDict (ret ++ [("Data"%string, TStruct types (ndarray_bytes nparr))]))
  | None =>
      data <- array_array (dtype_char (arr_dtype nparr)) (arr_data nparr) ;;
      Ok (TDict (ret ++ [("Data"%string, data)]))
  end.

(** ** CalibrationExtractor and ImageDocumentAssembler, read path *)

(** The text of a Python [str] literal (ASCII here). *)
Definition str_text (s : string) : list Z :=
  map (fun c => Z.of_nat (nat_of_ascii c)) (list_ascii_of_string s).

(** The items a [for] loop visits. *)
Definition py_iter (v : tag) : result (list tag) :=
  match v with
  | TList xs => Ok xs
  | TDict kvs => Ok (map (fun kv => TStr (str_text (fst kv))) kvs)
  | TStr s => Ok (map (fun c => TStr [c]) s)
  | TArray tc items => Ok (map (fun z => TInt (array_item_value tc z)) items)
  | _ => Err TypeError
  end.

(** [seq[-1]] *)
Definition py_index_last (v : tag) : result tag :=
  match v with
  | TList xs => match rev xs with x :: _ => Ok x | [] => Err IndexError end
  | TStr s => match rev s with c :: _ => Ok (TStr [c]) | [] => Err IndexError end
  | TArray tc items =>
      match rev items with z :: _ => Ok (TInt (array_item_value tc z)) | [] => Err IndexError end
  | TDict _ => Err KeyError
  | _ => Err TypeError
  end.

(** Bit pattern of the double [1.0]. *)
Definition one_bits : Z := 4607182418800017408.

Definition load_result : Type := (ndarray * list (tag * tag * tag) * (tag * tag * tag) * tag * list (string * tag))%type.

(** [load_image] from [image_tags = dmtag['ImageList'][img_index]] on.
    [py_float] is Python's builtin [float()]. *)
Definition load_entry (py_float : tag -> result Z) (image_tags : tag) : result load_result :=
  imagedata <- getitem image_tags "ImageData" ;;
  data <- imagedatadict_to_ndarray imagedata ;;
  calibration_tags <- get_default imagedata "Calibrations" (TDict []) ;;
  dimension_tags <- get_default calibration_tags "Dimension" (TList []) ;;
  dimensions <- py_iter dimension_tags ;;
  calibrations <- mapM (fun dimension =>
                          o <- getitem dimension "Origin" ;;
                          s <- getitem dimension "Scale" ;;
                          u <- getitem dimension "Units" ;;
                          Ok (o, s, u)) dimensions ;;
  brightness <- get_default calibration_tags "Brightness" (TDict []) ;;
  io <- get_default brightness "Origin" (TFloat 0) ;;
  is <- get_default brightness "Scale" (TFloat one_bits) ;;
  iu <- get_default brightness "Units" (TStr []) ;;
  title <- get_default image_tags "Name" TNone ;;
  has_tags <- contains image_tags "ImageTags" ;;
  properties <-
    (if has_tags then
       tags <- getitem image_tags "ImageTags" ;;
       scanned <- get_default tags "ImageScanned" (TDict []) ;;
       voltage <- get_default scanned "EHT" (TDict []) ;;
       if py_truthy voltage then
         v1 <- py_float voltage ;;
         v2 <- py_float voltage ;;
         Ok [("imported_properties", tags);
             ("autostem", TDict [("high_tension_v", TFloat v1)]);
             ("extra_high_tension", TFloat v2)]%string
       else Ok [("imported_properties"%string, tags)]
     else Ok []) ;;
  Ok (data, rev calibrations, (io, is, iu), title, properties).

(** [load_image] on the tree the codec decoded. *)
Definition load_image_tree (py_float : tag -> result Z) (dmtag : tag) : result load_result :=
  dmtag <- fix_strings dmtag ;;
  image_list <- getitem dmtag "ImageList" ;;
  image_tags <- py_index_last image_list ;;
  load_entry py_float image_tags.

(** ** CalibrationExtractor/Injector and ImageDocumentAssembler, write path *)

(** A calibration object: [offset] and [scale] are Python floats (bit
    patterns of doubles), [units] is text. *)
Record calibration := mk_calibration {
  offset : Z;
  scale : Z;
  units : list Z
}.

(** [d.setdefault(k, default)] followed by the in-place update [f] of the
    object it returns. *)
Definition setdefault_update (k : string) (default : tag) (f : tag -> tag) (d : tag) : tag :=
  match d with
  | TDict kvs =>
      let cur := match assoc_get k kvs with Some v => v | None => default end in
      TDict (assoc_set k (f cur) kvs)
  | _ => d
  end.

(** [l.append(x)] *)
Definition list_append (x : tag) (l : tag) : tag :=
  match l with TList xs => TList (xs ++ [x]) | _ => l end.

(** [d[k] = v] on a dict value. *)
Definition dict_set (k : string) (v : tag) (d : tag) : tag :=
  match d with TDict kvs => TDict (assoc_set k v kvs) | _ => d end.

Definition dimension_dict (c : calibration) : tag :=
  dict_set "Units" (TStr (units c))
    (dict_set "Scale" (TFloat (scale c))
       (dict_set "Origin" (TFloat (offset c)) (TDict []))).

(** The tree [save_image] hands to the codec.  [data_dict] is mutated after
    it was put in [ret["ImageList"]]; the two names alias one dict, so the
    tree is built here from the final [data_dict]. *)
Definition save_image_tree (data : ndarray) (dimensional_calibrations : list calibration)
    (intensity_calibration : option calibration) (metadata : tag) : result tag :=
  data_dict <- ndarray_to_imagedatadict data ;;
  let data_dict :=
    if negb (match dimensional_calibrations with [] => true | _ => false end) &&
       Nat.eqb (List.length dimensional_calibrations) (List.length (arr_shape data))
    then setdefault_update "Calibrations" (TDict [])
           (setdefault_update "Dimension" (TList [])
              (fun dimension_list =>
                 fold_left (fun l c => list_append (dimension_dict c) l)
                           (rev dimensional_calibrations) dimension_list))
           data_dict
    else data_dict in
  let data_dict :=
    match intensity_calibration with
    | Some ic =>
        setdefault_update "Calibrations" (TDict [])
          (setdefault_update "Brightness" (TDict [])
             (fun brightness =>
                dict_set "Units" (TStr (units ic))
                  (dict_set "Scale" (TFloat (scale ic))
                     (dict_set "Origin" (TFloat (offset ic)) brightness))))
          data_dict
    | None => data_dict
    end in
  Ok (TDict
        [ ("ImageList", TList [TDict [("ImageData", data_dict); ("ImageTags", metadata)]]);
          ("ImageSourceList",
            TList [TDict [("ClassName", TStr (str_text "ImageSource:Simple"));
                          ("Id", TList [TInt 0]); ("ImageRef", TInt 0)]]);
          ("DocumentObjectList", TList [TDict [("ImageSource", TInt 0); ("AnnotationType", TInt 20)]]);
          ("Image Behavior", TDict [("ViewDisplayID", TInt 8)]);
          ("InImageMode", TInt 1) ]%string).

(** ** File-level API *)

(** Modelled from the spec: the container codec [parse_dm_header] of
    [parse_dm3], which is not among the sources.  [parse_dm_header(file, ret)]
    encodes a tag tree into a stream or fails with a codec error
    ([Err CodecError]), for instance on a tag primitive it does not support
    ([encode_tree]); [parse_dm_header(file)] decodes the stream back into a
    tag tree or fails with a codec error ([decode_tree]).  Both failures
    reach the caller unchanged.  [empty_stream] is the content of a file
    just opened for writing. *)
Record codec := mk_codec {
  stream : Type;
  empty_stream : stream;
  encode_tree : tag -> result stream;
  decode_tree : stream -> result tag
}.

(** Modelled from the spec: the codec is the byte-level encoding of the tag
    tree, so decoding what it encoded gives the tree back. *)
Definition codec_lossless (c : codec) : Prop :=
  forall t s, encode_tree c t = Ok s -> decode_tree c s = Ok t.

(** The [file] argument: a path string or an open file-like object. *)
Inductive file_arg (S : Type) := FPath (path : string) | FStream (contents : S).
Arguments FPath {S} path.
Arguments FStream {S} contents.

Definition filesystem (S : Type) : Type := list (string * S).

Fixpoint fs_write {S} (p : string) (contents : S) (fs : filesystem S) : filesystem S :=
  match fs with
  | [] => [(p, contents)]
  | (q, x) :: r => if String.eqb q p then (q, contents) :: r else (q, x) :: fs_write p contents r
  end.

Fixpoint fs_read {S} (p : string) (fs : filesystem S) : option S :=
  match fs with
  | [] => None
  | (q, x) :: r => if String.eqb q p then Some x else fs_read p r
  end.

(** [save_image(data, dimensional_calibrations, intensity_calibration,
    metadata, file)]: the result is the content of the stream written, or
    the exception raised, together with the file system afterwards.  On a
    path the file is opened with mode ["wb"] (created empty) and the body of
    the [with] block evaluates [save_image(n, f)], where the name [n] is
    unbound. *)
Definition save_image (c : codec) (fs : filesystem (stream c)) (data : ndarray)
    (dimensional_calibrations : list calibration) (intensity_calibration : option calibration)
    (metadata : tag) (file : file_arg (stream c)) : result (stream c) * filesystem (stream c) :=
  match file with
  | FPath p => (Err NameError, fs_write p (empty_stream c) fs)
  | FStream _ =>
      match save_image_tree data dimensional_calibrations intensity_calibration metadata with
      | Ok ret => (encode_tree c ret, fs)
      | Err e => (Err e, fs)
      end
  end.

(** [load_image(file)] *)
Definition load_image (c : codec) (py_float : tag -> result Z) (fs : filesystem (stream c))
    (file : file_arg (stream c)) : result load_result :=
  let from_stream s := dmtag <- decode_tree c s ;; load_image_tree py_float dmtag in
  match file with
  | FPath p => match fs_read p fs with Some s => from_stream s | None => Err OSError end
  | FStream s => from_stream s
  end.

(** ** Concrete instances used by the examples *)

(** A codec that keeps the tree itself as the stream content. *)
Definition tree_codec : codec :=
  {| stream := option tag;
     empty_stream := None;
     encode_tree := fun t => Ok (Some t);
     decode_tree := fun s => match s with Some t => Ok t | None => Err OSError end |}.

(** [float()] on ints, bools and floats; strings are not parsed here. *)
Definition float_of_number (v : tag) : result Z :=
  match v with
  | TFloat bits => Ok bits
  | TInt z => if (0 <=? z) && (z <? 2 ^ 53) then Ok (double_of_small_int z) else Err ValueError
  | TBool b => Ok (double_of_small_int (if b then 1 else 0))
  | _ => Err ValueError
  end.

(** The flat items [array.array] receives from [nparr.flatten()]. *)
Definition elem_bits (e : elem) : Z :=
  match e with EScalar b => b | EComplex re _ => re end.

(** An element as [imagedatadict_to_ndarray] reads it back from the node
    [ndarray_to_imagedatadict] built: a scalar goes through the
    [array.array] of the dtype's character, a complex element through raw
    bytes. *)
Definition stored_elem (t : dtype) (e : elem) : elem :=
  match e with
  | EScalar b => EScalar (array_item_store (dtype_char t) b)
  | EComplex _ _ => e
  end.

Definition stored_ndarray (a : ndarray) : ndarray :=
  mk_ndarray (arr_dtype a) (arr_shape a) (map (stored_elem (arr_dtype a)) (arr_data a)).

(** The dtypes [ndarray_to_imagedatadict] accepts. *)
Definition supported_dtype (t : dtype) : bool :=
  match first_code t dm_image_dtypes with Some _ => true | None => false end.

(** ** Positions in a tag tree *)

Inductive step := PKey (k : string) | PIdx (i : nat).

(** The subtree at a path of dict keys and list indices. *)
Fixpoint subtree (t : tag) (p : list step) : option tag :=
  match p with
  | [] => Some t
  | PKey k :: p' =>
      match t with
      | TDict kvs => match assoc_get k kvs with Some v => subtree v p' | None => None end
      | _ => None
      end
  | PIdx i :: p' =>
      match t with
      | TList xs => match nth_error xs i with Some v => subtree v p' | None => None end
      | _ => None
      end
  end.

(** A path of the recursion of [fix_strings]: no key on it is ["Data"]. *)
Definition normal_path (p : list step) : Prop :=
  Forall (fun st => st <> PKey "Data") p.

(** [u] is met by the recursion of [fix_strings] started at [t]. *)
Inductive reached : tag -> tag -> Prop :=
| reached_here t : reached t t
| reached_dict kvs k v u :
    In (k, v) kvs -> k <> "Data"%string -> reached v u -> reached (TDict kvs) u
| reached_list xs v u : In v xs -> reached v u -> reached (TList xs) u.

(** Values [fix_strings] returns unchanged. *)
Definition other_kind (v : tag) : bool :=
  match v with TDict _ | TList _ | TArray _ _ => false | _ => true end.

(** A tree holding no [array.array] outside ["Data"] values. *)
Fixpoint plain (t : tag) : bool :=
  match t with
  | TDict kvs => forallb (fun kv => String.eqb (fst kv) "Data" || plain (snd kv)) kvs
  | TList xs => forallb plain xs
  | TArray _ _ => false
  | _ => true
  end.

(** Induction over tag trees, with the nested dicts and lists. *)
Section TagInd.
Variable P : tag -> Prop.
Hypothesis HDict : forall kvs, Forall (fun kv => P (snd kv)) kvs -> P (TDict kvs).
Hypothesis HList : forall xs, Forall P xs -> P (TList xs).
Hypothesis HArray : forall tc items, P (TArray tc items).
Hypothesis HStruct : forall tcs raw, P (TStruct tcs raw).
Hypothesis HInt : forall z, P (TInt z).
Hypothesis HFloat : forall b, P (TFloat b).
Hypothesis HStr : forall s, P (TStr s).
Hypothesis HBool : forall b, P (TBool b).
Hypothesis HNone : P TNone.

Fixpoint tag_ind' (t : tag) : P t :=
  match t with
  | TDict kvs =>
      HDict kvs
        ((fix go (kvs : list (string * tag)) : Forall (fun kv => P (snd kv)) kvs :=
            match kvs with
            | [] => Forall_nil _
            | kv :: r => Forall_cons kv (tag_ind' (snd kv)) (go r)
            end) kvs)
  | TList xs =>
      HList xs
        ((fix go (xs : list tag) : Forall P xs :=
            match xs with
            | [] => Forall_nil _
            | v :: r => Forall_cons v (tag_ind' v) (go r)
            end) xs)
  | TArray tc items => HArray tc items
  | TStruct tcs raw => HStruct tcs raw
  | TInt z => HInt z
  | TFloat b => HFloat b
  | TStr s => HStr s
  | TBool b => HBool b
  | TNone => HNone
  end.
End TagInd.

(** The triple [load_image] returns for a calibration [save_image] wrote. *)
Definition cal_triple (c : calibration) : tag * tag * tag :=
  (TFloat (offset c), TFloat (scale c), TStr (units c)).

(** The path of the [Dimension] list [save_image] writes. *)
Definition dimension_path : list step :=
  [PKey "ImageList"; PIdx 0; PKey "ImageData"; PKey "Calibrations"; PKey "Dimension"]%string.

(** One entry of the dict comprehension of [fix_strings]. *)
Definition fix_entry (kv : string * tag) : result (string * tag) :=
  let (k, v) := kv in
  v' <- (if String.eqb k "Data" then Ok v else fix_strings v) ;; Ok (k, v').

(** An [ImageData] node holding float32 data under the float64 code 12,
    with a [PixelDepth] of 4. *)
Definition float32_under_code_12 : tag :=
  TDict [("Data", TArray "f"%char [0]); ("DataType", TInt 12); ("PixelDepth", TInt 4);
         ("Dimensions", TList [TInt 1])]%string.

(** An [ImageData] node holding float32 data under the float32 code 2,
    with a [PixelDepth] of 8. *)
Definition pixel_depth_8_float32 : tag :=
  TDict [("Data", TArray "f"%char [0]); ("DataType", TInt 2); ("PixelDepth", TInt 8);
         ("Dimensions", TList [TInt 1])]%string.

(** The [Dimensions] value [ndarray_to_imagedatadict] writes for a shape. *)
Definition dims_tag (s : list nat) : tag :=
  TList (map (fun d => TInt (Z.of_nat d)) (rev s)).

(** The condition of [save_image] for writing the [Dimension] list:
    [dimensional_calibrations and len(dimensional_calibrations) == len(data.shape)]. *)
Definition writes_dimensions (data : ndarray) (cals : list calibration) : bool :=
  negb (match cals with [] => true | _ => false end) &&
  Nat.eqb (List.length cals) (List.length (arr_shape data)).

(** The tree of [save_image] around a final [data_dict] and the metadata. *)
Definition document (data_dict metadata : tag) : tag :=
  TDict
    [ ("ImageList", TList [TDict [("ImageData", data_dict); ("ImageTags", metadata)]]);
      ("ImageSourceList",
        TList [TDict [("ClassName", TStr (str_text "ImageSource:Simple"));
                      ("Id", TList [TInt 0]); ("ImageRef", TInt 0)]]);
      ("DocumentObjectList", TList [TDict [("ImageSource", TInt 0); ("AnnotationType", TInt 20)]]);
      ("Image Behavior", TDict [("ViewDisplayID", TInt 8)]);
      ("InImageMode", TInt 1) ]%string.

(** The entries [save_image] adds to a [data_dict] that had no
    ["Calibrations"] key. *)
Definition calibrations_tail (dims : bool) (cals : list calibration) (ic : option calibration)
    : list (string * tag) :=
  match dims, ic with
  | true, Some ic =>
      [("Calibrations", TDict [("Dimension", TList (map dimension_dict (rev cals)));
                               ("Brightness", dimension_dict ic)])]
  | true, None => [("Calibrations", TDict [("Dimension", TList (map dimension_dict (rev cals)))])]
  | false, Some ic => [("Calibrations", TDict [("Brightness", dimension_dict ic)])]
  | false, None => []
  end%string.

(** An [ImageList] entry whose [ImageTags.ImageScanned.EHT] is [0]. *)
Definition entry_eht_zero : tag :=
  TDict [("ImageData", TDict [("DataType", TInt 2); ("PixelDepth", TInt 4);
                              ("Dimensions", TList [TInt 1]); ("Data", TArray "f"%char [0])]);
         ("ImageTags", TDict [("ImageScanned", TDict [("EHT", TInt 0)])])]%string.

(** A document with a one-pixel thumbnail entry followed by a 2x1 image. *)
Definition thumbnail_then_image : list (string * tag) :=
  [("ImageList",
     TList [TDict [("ImageData", TDict [("DataType", TInt 9); ("PixelDepth", TInt 1);
                                        ("Dimensions", TList [TInt 1]);
                                        ("Data", TArray "b"%char [7])])];
            TDict [("ImageData", TDict [("DataType", TInt 1); ("PixelDepth", TInt 2);
                                        ("Dimensions", TList [TInt 1; TInt 2]);
                                        ("Data", TArray "h"%char [1; 2])]);
                   ("Name", TStr (str_text "full"))]])]%string.

(** ** Python's ["utf-16"] codec, encoding direction *)

(** A Python [str] holds Unicode scalar values; a surrogate code point
    cannot be encoded ([UnicodeEncodeError], [None] here). *)
Definition scalar_value (c : Z) : bool :=
  (0 <=? c) && (c <=? 1114111) && negb ((55296 <=? c) && (c <=? 57343)).

(** A UTF-16 code unit in little-endian byte order. *)
Definition utf16_le_unit (u : Z) : list byte := [byte_of_Z u; byte_of_Z (u / 256)].

Fixpoint utf16_encode_units (s : list Z) : option (list byte) :=
  match s with
  | [] => Some []
  | c :: r =>
      if negb (scalar_value c) then None
      else if c <? 65536 then option_map (app (utf16_le_unit c)) (utf16_encode_units r)
      else
        let c' := c - 65536 in
        option_map (app (utf16_le_unit (55296 + c' / 1024) ++ utf16_le_unit (56320 + c' mod 1024)))
                   (utf16_encode_units r)
  end.

(** [str_to_utf16_bytes(s) = s.encode('utf-16')] (Python 3 branch): a
    byte-order mark in native (little-endian) order, then the code units. *)
Definition str_to_utf16_bytes (s : list Z) : option (list byte) :=
  option_map (app [xff; xfe]) (utf16_encode_units s).

(** The [(Origin, Scale, Units)] triple [load_image] reads from one
    [Dimension] entry. *)
Definition read_dimension (dimension : tag) : result (tag * tag * tag) :=
  o <- getitem dimension "Origin" ;;
  s <- getitem dimension "Scale" ;;
  u <- getitem dimension "Units" ;;
  Ok (o, s, u).

(** The intensity [load_image] returns when no [Brightness] was stored:
    [(0.0, 1.0, "")]. *)
Definition default_intensity : tag * tag * tag := (TFloat 0, TFloat one_bits, TStr []).

(** ** Examples *)

Definition sample_int16 : ndarray :=
  mk_ndarray Int16 [2%nat; 3%nat] (map EScalar [1; 2; 3; 65535; 5; 6]).


Definition sample_c64 : ndarray :=
  mk_ndarray Complex64 [2%nat] [EComplex 0 2143289344; EComplex 3212836864 1].

Example ex_roundtrip_int16 :
  match save_image tree_codec [] sample_int16
          [mk_calibration 0 one_bits (str_text "nm"); mk_calibration one_bits 0 []]
          (Some (mk_calibration 0 one_bits [])) (TDict []) (FStream None) with
  | (Ok s, fs) =>
      match load_image tree_codec float_of_number fs (FStream s) with
      | Ok (a, cals, _, _, _) => a = sample_int16 /\
          cals = [(TFloat 0, TFloat one_bits, TStr (str_text "nm")); (TFloat one_bits, TFloat 0, TStr [])]
      | Err _ => False
      end
  | _ => False
  end.
Proof. vm_compute. split; reflexivity. Qed.

Example ex_roundtrip_c64 :
  (node <- ndarray_to_imagedatadict sample_c64 ;; imagedatadict_to_ndarray node) = Ok sample_c64.
Proof. vm_compute. reflexivity. Qed.

(** * Lemmas *)

(** ** Byte images *)

Lemma Z_of_byte_of_Z (z : Z) : Z_of_byte (byte_of_Z z) = z mod 256.
Proof.
  unfold byte_of_Z, Z_of_byte.
  assert (Hr : 0 <= z mod 256 < 256) by (apply Z.mod_pos_bound; lia).
  destruct (Byte.of_N (Z.to_N (z mod 256))) as [b|] eqn:E.
  - apply Byte.to_of_N in E. rewrite E. apply Z2N.id. lia.
  - apply Byte.of_N_None_iff in E. lia.
Qed.

Lemma le_bytes_length (n : nat) (z : Z) : List.length (le_bytes n z) = n.
Proof.
  revert z; induction n as [|n IH]; intro z; simpl; [reflexivity | now rewrite IH].
Qed.

Lemma le_value_le_bytes (n : nat) (z : Z) :
  0 <= z < 2 ^ (8 * Z.of_nat n) -> le_value (le_bytes n z) = z.
Proof.
  revert z; induction n as [|n IH]; intros z Hz.
  - simpl in *. lia.
  - cbn [le_bytes le_value]. rewrite Z_of_byte_of_Z, IH.
    + pose proof (Z.div_mod z 256). lia.
    + split; [apply Z.div_pos; lia |].
      apply Z.div_lt_upper_bound; [lia |].
      replace (8 * Z.of_nat (S n)) with (8 + 8 * Z.of_nat n) in Hz by lia.
      rewrite Z.pow_add_r in Hz by lia. change (2 ^ 8) with 256 in Hz. lia.
Qed.

Lemma chunks_concat {A} (w : nat) (f : A -> list byte) (xs : list A) (fuel : nat) :
  (0 < w)%nat -> Forall (fun x => List.length (f x) = w) xs ->
  (List.length xs <= fuel)%nat ->
  chunks w fuel (List.concat (map f xs)) = map f xs.
Proof.
  intros Hw Hall; revert fuel; induction Hall as [|x xs Hx Hall IH]; intros fuel Hf.
  - destruct fuel; reflexivity.
  - destruct fuel as [|fuel]; [simpl in Hf; lia |].
    cbn [map List.concat].
    set (L := List.concat (map f xs)).
    assert (Hb : exists b bs, f x ++ L = b :: bs)
      by (destruct (f x) as [|b bs] eqn:E; simpl in Hx;
          [lia | exists b, (bs ++ L); reflexivity]).
    destruct Hb as (b & bs & Hb).
    transitivity (firstn w (f x ++ L) :: chunks w fuel (skipn w (f x ++ L)));
      [cbn [chunks]; rewrite Hb; reflexivity |].
    rewrite firstn_app, skipn_app, Hx, firstn_all2, Nat.sub_diag, firstn_O, app_nil_r
      by lia.
    rewrite skipn_all2 by lia. simpl.
    f_equal. apply IH. simpl in Hf; lia.
Qed.

Lemma concat_length_uniform {A} (w : nat) (f : A -> list byte) (xs : list A) :
  Forall (fun x => List.length (f x) = w) xs ->
  List.length (List.concat (map f xs)) = (w * List.length xs)%nat.
Proof.
  induction 1 as [|x xs Hx _ IH]; simpl; [lia |].
  rewrite length_app, Hx, IH. lia.
Qed.

Lemma elem_bytes_length (t : dtype) (e : elem) :
  elem_ok t e -> List.length (elem_bytes t e) = itemsize t.
Proof.
  destruct e as [b|re im]; simpl; intros H.
  - apply le_bytes_length.
  - destruct H as [Hc _]. rewrite length_app, !le_bytes_length.
    destruct t; try discriminate; reflexivity.
Qed.

Lemma elem_of_bytes_elem_bytes (t : dtype) (e : elem) :
  elem_ok t e -> elem_of_bytes t (elem_bytes t e) = e.
Proof.
  unfold elem_of_bytes.
  destruct e as [b|re im]; cbn [elem_ok elem_bytes]; intros H.
  - destruct H as [Hc Hb]. rewrite Hc. f_equal. now apply le_value_le_bytes.
  - destruct H as (Hc & Hre & Him). rewrite Hc.
    assert (Hw : 4 * Z.of_nat (itemsize t) = 8 * Z.of_nat (Nat.div (itemsize t) 2))
      by (destruct t; try discriminate; reflexivity).
    rewrite Hw in Hre, Him.
    rewrite firstn_app, skipn_app, le_bytes_length, Nat.sub_diag, firstn_O, app_nil_r,
      firstn_all2, skipn_all2, skipn_O by (rewrite le_bytes_length; lia).
    simpl. rewrite !le_value_le_bytes by assumption. reflexivity.
Qed.

(** [np.frombuffer(bytes(a.data), dtype)] gives back the flat elements. *)
Lemma frombuffer_ndarray_bytes (t : dtype) (s : list nat) (data : list elem) :
  Forall (elem_ok t) data ->
  frombuffer (ndarray_bytes (mk_ndarray t s data)) t
  = Ok (mk_ndarray t [List.length data] data).
Proof.
  intros Hok.
  assert (Hlen : Forall (fun e => List.length (elem_bytes t e) = itemsize t) data)
    by (eapply Forall_impl; [exact (elem_bytes_length t) | exact Hok]).
  assert (Hw : (0 < itemsize t)%nat) by (destruct t; simpl; lia).
  unfold frombuffer, ndarray_bytes; simpl.
  rewrite (concat_length_uniform (itemsize t)) by exact Hlen.
  rewrite Nat.mul_comm, Nat.Div0.mod_mul, Nat.div_mul by lia. simpl.
  rewrite chunks_concat by first [exact Hw | exact Hlen | nia].
  rewrite map_map. f_equal. f_equal.
  clear Hlen. induction Hok as [|e data He _ IH]; simpl; [reflexivity |].
  now rewrite elem_of_bytes_elem_bytes, IH.
Qed.

Lemma mapM_as_int_nat (s : list nat) :
  mapM as_int (map (fun d => TInt (Z.of_nat d)) s) = Ok (map Z.of_nat s).
Proof. induction s as [|d s IH]; simpl; [reflexivity | now rewrite IH]. Qed.

Lemma resolve_shape_nat (s : list nat) :
  resolve_shape (prod_shape s) (map Z.of_nat s) = Ok s.
Proof.
  unfold resolve_shape.
  assert (H1 : existsb (fun z => z <? -1) (map Z.of_nat s) = false).
  { induction s as [|d s IH]; simpl; [reflexivity |].
    rewrite IH, orb_false_r. apply Z.ltb_ge. lia. }
  assert (H2 : filter (Z.eqb (-1)) (map Z.of_nat s) = []).
  { clear H1. induction s as [|d s IH]; cbn [map filter]; [reflexivity |].
    rewrite IH, (proj2 (Z.eqb_neq (-1) (Z.of_nat d))) by lia. reflexivity. }
  assert (H3 : map Z.to_nat (map Z.of_nat s) = s).
  { rewrite map_map. erewrite map_ext; [apply map_id | intro; apply Nat2Z.id]. }
  rewrite H1, H2. simpl. rewrite H3, Nat.eqb_refl. reflexivity.
Qed.

Lemma reshape_nat (t : dtype) (n : list nat) (data : list elem) (s : list nat) :
  List.length data = prod_shape s ->
  reshape (mk_ndarray t n data) (TList (map (fun d => TInt (Z.of_nat d)) s))
  = Ok (mk_ndarray t s data).
Proof.
  intros Hlen. unfold reshape; simpl.
  rewrite mapM_as_int_nat. simpl. rewrite Hlen, resolve_shape_nat. reflexivity.
Qed.

(** [im.reshape(list(reversed(reversed(shape))))] restores the shape. *)
Lemma reshape_dimensions (t : dtype) (n : list nat) (data : list elem) (s : list nat) :
  List.length data = prod_shape s ->
  (rd <- py_reverse (TList (map (fun d => TInt (Z.of_nat d)) (rev s))) ;;
   reshape (mk_ndarray t n data) rd)
  = Ok (mk_ndarray t s data).
Proof.
  intros Hlen. simpl.
  rewrite <- map_rev, rev_involutive.
  unfold reshape; simpl.
  rewrite mapM_as_int_nat. simpl. rewrite Hlen, resolve_shape_nat. reflexivity.
Qed.

(** ** ImageMarshaler round trip *)

Lemma dtype_eqb_refl (t : dtype) : dtype_eqb t t = true.
Proof. destruct t; reflexivity. Qed.

Lemma array_array_scalars (tc : ascii) (t t' : dtype) (data : list elem) :
  dtype_of_typecode tc = Some t' -> is_complex t = false -> Forall (elem_ok t) data ->
  array_array tc data = Ok (TArray tc (map (fun e => array_item_store tc (elem_bits e)) data)).
Proof.
  intros Htc Hc Hok. unfold array_array. rewrite Htc.
  induction Hok as [|[b|re im] data He _ IH]; simpl in *; [reflexivity | |].
  - destruct (mapM _ data); inversion IH; reflexivity.
  - destruct He as [He _]. congruence.
Qed.

Lemma map_EScalar_elem_bits (t : dtype) (data : list elem) :
  is_complex t = false -> Forall (elem_ok t) data ->
  map EScalar (map (fun e => array_item_store (dtype_char t) (elem_bits e)) data)
  = map (stored_elem t) data.
Proof.
  intros Hc Hok; induction Hok as [|[b|re im] data He _ IH]; simpl in *; [reflexivity | |].
  - now rewrite IH.
  - destruct He as [He _]. congruence.
Qed.

Lemma scalar_roundtrip (t : dtype) (s : list nat) (data : list elem) (k : Z) (nm : string) :
  dm_type_of t = Ok k -> code_get k dm_image_dtypes = Some (nm, t) ->
  np_to_structarray t structarray_to_np_map = None ->
  dtype_of_typecode (dtype_char t) = Some t -> is_complex t = false ->
  Forall (elem_ok t) data -> List.length data = prod_shape s ->
  let node := TDict [("DataType", TInt k); ("PixelDepth", TInt (Z.of_nat (itemsize t)));
                     ("Dimensions", dims_tag s);
                     ("Data", TArray (dtype_char t)
                        (map (fun e => array_item_store (dtype_char t) (elem_bits e)) data))]%string in
  ndarray_to_imagedatadict (mk_ndarray t s data) = Ok node /\
  imagedatadict_to_ndarray node = Ok (mk_ndarray t s (map (stored_elem t) data)).
Proof.
  intros Hk Hget Hns Htc Hc Hok Hlen node; split.
  - unfold ndarray_to_imagedatadict. cbn [arr_dtype arr_shape arr_data].
    rewrite Hk. cbn [bind]. rewrite Hns.
    rewrite (array_array_scalars _ t t) by assumption. reflexivity.
  - unfold imagedatadict_to_ndarray, node.
    cbn -[code_get dm_image_dtypes py_reverse reshape dims_tag].
    rewrite Htc. cbn -[code_get dm_image_dtypes py_reverse reshape dims_tag].
    rewrite Hget. cbn -[py_reverse reshape dims_tag].
    rewrite ?dtype_eqb_refl, ?Z.eqb_refl. cbn [py_assert bind].
    unfold dims_tag. cbn [py_reverse bind].
    rewrite <- map_rev, rev_involutive, reshape_nat by (rewrite !length_map; exact Hlen).
    now rewrite (map_EScalar_elem_bits t).
Qed.

Lemma complex_roundtrip (t : dtype) (s : list nat) (data : list elem) (k : Z) (nm : string)
    (tcs : list ascii) :
  dm_type_of t = Ok k -> code_get k dm_image_dtypes = Some (nm, t) ->
  np_to_structarray t structarray_to_np_map = Some tcs ->
  structarray_lookup tcs structarray_to_np_map = Some t ->
  Forall (elem_ok t) data -> List.length data = prod_shape s ->
  let node := TDict [("DataType", TInt k); ("PixelDepth", TInt (Z.of_nat (itemsize t)));
                     ("Dimensions", dims_tag s);
                     ("Data", TStruct tcs (ndarray_bytes (mk_ndarray t s data)))]%string in
  ndarray_to_imagedatadict (mk_ndarray t s data) = Ok node /\
  imagedatadict_to_ndarray node = Ok (mk_ndarray t s data).
Proof.
  intros Hk Hget Hns Hlk Hok Hlen node; split.
  - unfold ndarray_to_imagedatadict. cbn [arr_dtype arr_shape arr_data].
    rewrite Hk. cbn [bind]. rewrite Hns. reflexivity.
  - unfold imagedatadict_to_ndarray, node.
    cbn -[code_get dm_image_dtypes py_reverse reshape dims_tag frombuffer
          structarray_lookup structarray_to_np_map ndarray_bytes].
    rewrite Hlk. cbn [of_option bind].
    rewrite frombuffer_ndarray_bytes by exact Hok.
    cbn -[code_get dm_image_dtypes py_reverse reshape dims_tag].
    rewrite Hget. cbn -[py_reverse reshape dims_tag].
    rewrite ?dtype_eqb_refl, ?Z.eqb_refl. cbn [py_assert bind].
    unfold dims_tag. cbn [py_reverse bind].
    rewrite <- map_rev, rev_involutive, reshape_nat by exact Hlen.
    reflexivity.
Qed.

(** Only typecode ["f"] changes what it stores. *)
Lemma array_item_store_not_f (tc : ascii) (b : Z) :
  tc <> "f"%char -> array_item_store tc b = b.
Proof. intros H. unfold array_item_store. destruct (ascii_dec tc "f"); congruence. Qed.

Lemma stored_elem_not_f32 (t : dtype) (e : elem) :
  t <> Float32 -> stored_elem t e = e.
Proof.
  intros Ht. destruct e as [b|re im]; [| reflexivity]. cbn [stored_elem].
  rewrite array_item_store_not_f; [reflexivity |].
  destruct t; cbn [dtype_char]; try discriminate. congruence.
Qed.

(** [stored_ndarray a] is [a] for every dtype but float32. *)
Lemma stored_ndarray_not_f32 (a : ndarray) :
  arr_dtype a <> Float32 -> stored_ndarray a = a.
Proof.
  destruct a as [t s data]; cbn [arr_dtype]; intros Ht. unfold stored_ndarray.
  cbn [arr_dtype arr_shape arr_data]. f_equal.
  erewrite map_ext; [apply map_id | intro; now apply stored_elem_not_f32].
Qed.

(** [imagedatadict_to_ndarray(ndarray_to_imagedatadict(a))] is [a] with
    every scalar stored through its [array.array], for every well-formed
    array of a supported dtype; [Dimensions] is the reversed shape. *)
Lemma imagedata_roundtrip (a : ndarray) :
  wf_ndarray a -> supported_dtype (arr_dtype a) = true ->
  exists node,
    ndarray_to_imagedatadict a = Ok node /\
    getitem node "Dimensions" = Ok (dims_tag (arr_shape a)) /\
    imagedatadict_to_ndarray node = Ok (stored_ndarray a).
Proof.
  destruct a as [t s data]; intros [Hlen Hok] Hsup; cbn [arr_dtype arr_shape arr_data] in *.
  destruct t; try discriminate Hsup;
    match goal with
    | |- context [mk_ndarray ?t _ _] => pose (dt := t)
    end;
    first
      [ edestruct (scalar_roundtrip dt s data) as [H1 H2];
        [ reflexivity | reflexivity | reflexivity | reflexivity | reflexivity
        | exact Hok | exact Hlen | ];
        eexists; split; [exact H1 | split; [reflexivity | exact H2]]
      | edestruct (complex_roundtrip dt s data) as [H1 H2];
        [ reflexivity | reflexivity | reflexivity | reflexivity
        | exact Hok | exact Hlen | ];
        eexists; split; [exact H1 | split; [reflexivity |]];
        rewrite stored_ndarray_not_f32 by discriminate; exact H2 ].
Qed.

(** ** [fix_strings] *)

Lemma fix_strings_list (xs : list tag) :
  fix_strings (TList xs) = (ys <- mapM fix_strings xs ;; Ok (TList ys)).
Proof.
  cbn [fix_strings].
  match goal with |- bind (?g xs) _ = _ =>
    assert (H : forall l, g l = mapM fix_strings l) end.
  { induction l as [|v r IH]; [reflexivity |]. cbn - [fix_strings]. now rewrite IH. }
  now rewrite H.
Qed.

Lemma fix_strings_dict (kvs : list (string * tag)) :
  fix_strings (TDict kvs) = (kvs' <- mapM fix_entry kvs ;; Ok (TDict kvs')).
Proof.
  cbn [fix_strings].
  match goal with |- bind (?g kvs) _ = _ =>
    assert (H : forall l, g l = mapM fix_entry l) end.
  { induction l as [|kv r IH]; [reflexivity |]. destruct kv as [k v].
    cbn - [fix_strings]. rewrite IH. unfold fix_entry.
    destruct (if String.eqb k "Data" then Ok v else fix_strings v); reflexivity. }
  now rewrite H.
Qed.

Lemma mapM_nth {A B} (f : A -> result B) (xs : list A) (ys : list B) (i : nat) (x : A) :
  mapM f xs = Ok ys -> nth_error xs i = Some x ->
  exists y, nth_error ys i = Some y /\ f x = Ok y.
Proof.
  revert ys i; induction xs as [|x0 xs IH]; intros ys i Hm Hi; [destruct i; discriminate |].
  simpl in Hm. destruct (f x0) as [y0|e] eqn:E0; [| discriminate]. simpl in Hm.
  destruct (mapM f xs) as [ys0|e] eqn:E1; [| discriminate]. simpl in Hm. inversion Hm; subst.
  destruct i as [|i]; simpl in Hi.
  - inversion Hi; subst. exists y0. split; [reflexivity | exact E0].
  - simpl. exact (IH ys0 i eq_refl Hi).
Qed.

Lemma mapM_app_last {A B} (f : A -> result B) (xs : list A) (x : A) (ys : list B) :
  mapM f (xs ++ [x]) = Ok ys -> exists ys0 y, ys = ys0 ++ [y] /\ f x = Ok y.
Proof.
  revert ys; induction xs as [|x0 xs IH]; intros ys Hm; simpl in Hm.
  - destruct (f x) as [y|e]; [| discriminate]. simpl in Hm. inversion Hm. exists [], y. auto.
  - destruct (f x0) as [y0|e]; [| discriminate]. simpl in Hm.
    destruct (mapM f (xs ++ [x])) as [ys1|e] eqn:E; [| discriminate]. simpl in Hm.
    inversion Hm; subst. destruct (IH ys1 eq_refl) as (ys0 & y & -> & Hy).
    exists (y0 :: ys0), y. auto.
Qed.

Lemma mapM_err {A B} (f : A -> result B) (xs : list A) (e : pyerr) :
  mapM f xs = Err e -> exists x, In x xs /\ f x = Err e.
Proof.
  induction xs as [|x xs IH]; simpl; [discriminate |].
  destruct (f x) as [y|e'] eqn:E; simpl.
  - destruct (mapM f xs) as [ys|e'']; simpl; [discriminate |].
    intros H; inversion H; subst. destruct (IH eq_refl) as (x' & Hin & Hx). eauto.
  - intros H; inversion H; subst. eauto.
Qed.

Lemma mapM_fix_entry_get (kvs kvs' : list (string * tag)) (k : string) (v : tag) :
  mapM fix_entry kvs = Ok kvs' -> assoc_get k kvs = Some v ->
  exists v', assoc_get k kvs' = Some v' /\
             (if String.eqb k "Data" then Ok v else fix_strings v) = Ok v'.
Proof.
  revert kvs'; induction kvs as [|[k0 v0] r IH]; intros kvs' Hm Hg; [discriminate |].
  simpl in Hm. destruct (if String.eqb k0 "Data" then Ok v0 else fix_strings v0)
    as [v0'|e] eqn:E0; [| discriminate]. simpl in Hm.
  destruct (mapM fix_entry r) as [r'|e] eqn:Er; [| discriminate]. simpl in Hm.
  inversion Hm; subst. simpl in Hg |- *.
  destruct (String.eqb_spec k0 k) as [->|Hne].
  - inversion Hg; subst. eauto.
  - eauto.
Qed.

Lemma subtree_app (t : tag) (p q : list step) :
  subtree t (p ++ q) = match subtree t p with Some v => subtree v q | None => None end.
Proof.
  revert t; induction p as [|[k|i] p IH]; intros t; [reflexivity | |].
  - destruct t; try reflexivity. simpl. destruct (assoc_get k kvs); [apply IH | reflexivity].
  - destruct t; try reflexivity. simpl. destruct (nth_error xs i); [apply IH | reflexivity].
Qed.

(** Along a normal path, the result of [fix_strings] holds at each position
    the normalisation of what the input holds there. *)
Lemma fix_strings_path (p : list step) :
  normal_path p ->
  forall t t' v, fix_strings t = Ok t' -> subtree t p = Some v ->
  exists v', subtree t' p = Some v' /\ fix_strings v = Ok v'.
Proof.
  induction 1 as [|st p Hst Hp IH]; intros t t' v Hf Hs.
  - simpl in Hs. inversion Hs; subst. exists t'. split; [reflexivity | exact Hf].
  - destruct st as [k|i].
    + destruct t; try discriminate Hs. simpl in Hs.
      destruct (assoc_get k kvs) as [w|] eqn:Hg; [| discriminate].
      rewrite fix_strings_dict in Hf.
      destruct (mapM fix_entry kvs) as [kvs'|e] eqn:Hm; [| discriminate].
      simpl in Hf. inversion Hf; subst.
      destruct (mapM_fix_entry_get _ _ _ _ Hm Hg) as (w' & Hg' & Hw).
      destruct (String.eqb_spec k "Data") as [->|_]; [congruence |].
      destruct (IH _ _ _ Hw Hs) as (v' & Hv' & Hfv).
      exists v'. simpl. now rewrite Hg'.
    + destruct t; try discriminate Hs. simpl in Hs.
      destruct (nth_error xs i) as [w|] eqn:Hg; [| discriminate].
      rewrite fix_strings_list in Hf.
      destruct (mapM fix_strings xs) as [xs'|e] eqn:Hm; [| discriminate].
      simpl in Hf. inversion Hf; subst.
      destruct (mapM_nth _ _ _ _ _ Hm Hg) as (w' & Hg' & Hw).
      destruct (IH _ _ _ Hw Hs) as (v' & Hv' & Hfv).
      exists v'. simpl. now rewrite Hg'.
Qed.

(** A failure of [fix_strings] comes from an undecodable array it met. *)
Lemma fix_strings_err (t : tag) :
  forall e, fix_strings t = Err e ->
  e = UnicodeDecodeError /\
  exists tc items, reached t (TArray tc items) /\ utf16_decode (array_tostring tc items) = None.
Proof.
  induction t as [kvs IH|xs IH|tc items|tcs raw|z|b|s|b|] using tag_ind'; intros e He;
    try discriminate He.
  - rewrite fix_strings_dict in He.
    destruct (mapM fix_entry kvs) as [kvs'|e'] eqn:Hm; [discriminate |]. simpl in He.
    inversion He; subst e'.
    destruct (mapM_err _ _ _ Hm) as ([k v] & Hin & Hk). simpl in Hk.
    destruct (String.eqb_spec k "Data") as [_|Hne]; [discriminate |].
    destruct (fix_strings v) as [v'|e'] eqn:Hv; [discriminate |]. simpl in Hk.
    inversion Hk; subst e'.
    rewrite Forall_forall in IH.
    destruct (IH (k, v) Hin e Hv) as (-> & tc & items & Hr & Hd).
    split; [reflexivity |]. exists tc, items. split; [| exact Hd].
    eapply reached_dict; eauto.
  - rewrite fix_strings_list in He.
    destruct (mapM fix_strings xs) as [xs'|e'] eqn:Hm; [discriminate |]. simpl in He.
    inversion He; subst e'.
    destruct (mapM_err _ _ _ Hm) as (v & Hin & Hv).
    rewrite Forall_forall in IH.
    destruct (IH v Hin e Hv) as (-> & tc & items & Hr & Hd).
    split; [reflexivity |]. exists tc, items. split; [| exact Hd].
    eapply reached_list; eauto.
  - simpl in He. destruct (utf16_decode (array_tostring tc items)) eqn:Hd; [discriminate |].
    inversion He. split; [reflexivity |]. exists tc, items. split; [constructor | exact Hd].
Qed.

(** ** Dicts as association lists *)

Lemma assoc_get_app (k : string) (l1 l2 : list (string * tag)) :
  assoc_get k (l1 ++ l2) = match assoc_get k l1 with Some v => Some v | None => assoc_get k l2 end.
Proof.
  induction l1 as [|[k' v'] r IH]; simpl; [reflexivity |].
  destruct (String.eqb k' k); [reflexivity | exact IH].
Qed.

Lemma assoc_set_app_none (k : string) (v : tag) (l1 l2 : list (string * tag)) :
  assoc_get k l1 = None -> assoc_set k v (l1 ++ l2) = l1 ++ assoc_set k v l2.
Proof.
  induction l1 as [|[k' v'] r IH]; simpl; intros H; [reflexivity |].
  destruct (String.eqb k' k); [discriminate | now rewrite IH].
Qed.

Lemma assoc_set_absent (k : string) (v : tag) (kvs : list (string * tag)) :
  assoc_get k kvs = None -> assoc_set k v kvs = kvs ++ [(k, v)].
Proof.
  intros H. rewrite <- (app_nil_r kvs) at 1. now rewrite assoc_set_app_none.
Qed.

Lemma fold_list_append (h : calibration -> tag) (xs : list calibration) (acc : list tag) :
  fold_left (fun l c => list_append (h c) l) xs (TList acc) = TList (acc ++ map h xs).
Proof.
  revert acc; induction xs as [|x xs IH]; intros acc; simpl.
  - now rewrite app_nil_r.
  - rewrite IH, <- app_assoc. reflexivity.
Qed.

(** ** The node [ndarray_to_imagedatadict] builds *)

Lemma forallb_plain_dims (l : list nat) :
  forallb plain (map (fun d => TInt (Z.of_nat d)) l) = true.
Proof. induction l as [|d l IH]; simpl; [reflexivity | exact IH]. Qed.

Lemma imagedata_node (a : ndarray) :
  wf_ndarray a -> supported_dtype (arr_dtype a) = true ->
  exists kvs,
    ndarray_to_imagedatadict a = Ok (TDict kvs) /\
    assoc_get "Calibrations" kvs = None /\
    plain (TDict kvs) = true /\
    imagedatadict_to_ndarray (TDict kvs) = Ok (stored_ndarray a).
Proof.
  intros Hwf Hsup.
  destruct (imagedata_roundtrip a Hwf Hsup) as (node & Hn & _ & Hr).
  pose proof Hn as Hn'.
  unfold ndarray_to_imagedatadict in Hn.
  destruct (dm_type_of (arr_dtype a)) as [k|e]; cbn [bind] in Hn; [| discriminate].
  destruct (np_to_structarray (arr_dtype a) structarray_to_np_map) as [tcs|].
  - inversion Hn; subst. eexists; split; [exact Hn' |].
    split; [reflexivity |]. split; [| exact Hr].
    simpl. now rewrite forallb_plain_dims.
  - destruct (array_array _ _) as [d|e]; cbn [bind] in Hn; [| discriminate].
    inversion Hn; subst. eexists; split; [exact Hn' |].
    split; [reflexivity |]. split; [| exact Hr].
    simpl. now rewrite forallb_plain_dims.
Qed.

(** [imagedatadict_to_ndarray] reads only [Data], [DataType], [PixelDepth]
    and [Dimensions]. *)
Lemma imagedatadict_to_ndarray_ext (kvs kvs' : list (string * tag)) :
  (forall k, k <> "Calibrations"%string -> assoc_get k kvs' = assoc_get k kvs) ->
  imagedatadict_to_ndarray (TDict kvs') = imagedatadict_to_ndarray (TDict kvs).
Proof.
  intros H. unfold imagedatadict_to_ndarray, getitem.
  rewrite (H "Data"%string), (H "DataType"%string), (H "PixelDepth"%string),
    (H "Dimensions"%string) by discriminate.
  reflexivity.
Qed.

Lemma assoc_get_calibrations_tail (k : string) (b : bool) (cals : list calibration)
    (ic : option calibration) :
  k <> "Calibrations"%string -> assoc_get k (calibrations_tail b cals ic) = None.
Proof.
  intros Hk. destruct b, ic; cbn [calibrations_tail assoc_get]; try reflexivity;
    (destruct (String.eqb_spec "Calibrations" k) as [He|]; [subst; congruence | reflexivity]).
Qed.

(** ** The tree [save_image] writes *)

Lemma setdefault_absent (k : string) (d : tag) (f : tag -> tag) (kvs : list (string * tag)) :
  assoc_get k kvs = None -> setdefault_update k d f (TDict kvs) = TDict (kvs ++ [(k, f d)]).
Proof. intros H. unfold setdefault_update. rewrite H. now rewrite assoc_set_absent. Qed.

Lemma setdefault_last (k : string) (d : tag) (f : tag -> tag) (kvs : list (string * tag))
    (v : tag) :
  assoc_get k kvs = None ->
  setdefault_update k d f (TDict (kvs ++ [(k, v)])) = TDict (kvs ++ [(k, f v)]).
Proof.
  intros H. unfold setdefault_update. rewrite assoc_get_app, H. simpl.
  rewrite String.eqb_refl, assoc_set_app_none by exact H. simpl.
  now rewrite String.eqb_refl.
Qed.

Lemma save_image_tree_document (a : ndarray) (cals : list calibration)
    (ic : option calibration) (meta : tag) (kvs : list (string * tag)) :
  ndarray_to_imagedatadict a = Ok (TDict kvs) -> assoc_get "Calibrations" kvs = None ->
  save_image_tree a cals ic meta
  = Ok (document (TDict (kvs ++ calibrations_tail (writes_dimensions a cals) cals ic)) meta).
Proof.
  intros Hn Hnc. unfold save_image_tree. rewrite Hn. cbn [bind].
  unfold writes_dimensions.
  destruct (negb _ && _).
  - rewrite setdefault_absent by exact Hnc.
    destruct ic as [ic|]; [rewrite setdefault_last by exact Hnc |];
      simpl; rewrite fold_list_append; reflexivity.
  - destruct ic as [ic|]; [| now rewrite app_nil_r].
    rewrite setdefault_absent by exact Hnc. reflexivity.
Qed.

(** ** Lookups with a default *)

Lemma get_default_cases (d : tag) (k : string) (def v : tag) :
  get_default d k def = Ok v ->
  getitem d k = Ok v \/ (v = def /\ exists kvs, d = TDict kvs /\ assoc_get k kvs = None).
Proof.
  destruct d; simpl; try discriminate.
  destruct (assoc_get k kvs) eqn:E; intros H; inversion H; subst; [left; reflexivity |].
  right. eauto.
Qed.

Lemma get_default_truthy (d : tag) (k : string) (def v : tag) :
  get_default d k def = Ok v -> py_truthy def = false -> py_truthy v = true ->
  getitem d k = Ok v.
Proof.
  intros H Hd Hv. destruct (get_default_cases d k def v H) as [H'|[-> _]]; congruence.
Qed.

Lemma contains_false (d : tag) (k : string) (v : tag) :
  contains d k = Ok false -> getitem d k <> Ok v.
Proof.
  destruct d; simpl; try discriminate.
  destruct (assoc_get k kvs); simpl; congruence.
Qed.

(** One step of a computation in the error monad that is known to succeed. *)
Ltac bind_ok H :=
  match type of H with
  | bind ?m _ = Ok _ =>
      let E := fresh "E" in
      destruct m eqn:E; cbn [bind] in H; [| discriminate H]
  end.

(** ** Files *)

Lemma fs_read_write {S} (p : string) (x : S) (fs : filesystem S) :
  fs_read p (fs_write p x fs) = Some x.
Proof.
  induction fs as [|[q y] r IH]; simpl; [now rewrite String.eqb_refl |].
  destruct (String.eqb q p) eqn:E; simpl; rewrite E; [reflexivity | exact IH].
Qed.

(** ** Reading back what [save_image] wrote *)

(** [fix_strings] returns a tree holding no [array.array] outside ["Data"]
    unchanged. *)
Lemma fix_strings_plain (t : tag) : plain t = true -> fix_strings t = Ok t.
Proof.
  induction t as [kvs IH|xs IH|tc items|tcs raw|z|b|s|b|] using tag_ind'; intros Hp;
    try reflexivity; [| | discriminate Hp].
  - rewrite fix_strings_dict.
    assert (Hm : mapM fix_entry kvs = Ok kvs); [| now rewrite Hm].
    revert Hp; induction IH as [|[k v] r Hv _ IHr]; intros Hp; [reflexivity |].
    cbn [plain forallb fst snd] in Hp, Hv. apply andb_true_iff in Hp as [H1 H2].
    cbn [mapM]. unfold fix_entry at 1.
    destruct (String.eqb k "Data"); cbn [bind].
    + rewrite IHr by exact H2. reflexivity.
    + rewrite (Hv H1). cbn [bind]. rewrite IHr by exact H2. reflexivity.
  - rewrite fix_strings_list.
    assert (Hm : mapM fix_strings xs = Ok xs); [| now rewrite Hm].
    revert Hp; induction IH as [|v r Hv _ IHr]; intros Hp; [reflexivity |].
    cbn [plain forallb] in Hp. apply andb_true_iff in Hp as [H1 H2].
    cbn [mapM]. rewrite (Hv H1). cbn [bind]. rewrite IHr by exact H2. reflexivity.
Qed.

Lemma plain_dict_app (l1 l2 : list (string * tag)) :
  plain (TDict (l1 ++ l2)) = plain (TDict l1) && plain (TDict l2).
Proof. cbn [plain]. apply forallb_app. Qed.

Lemma forallb_plain_dimension_dicts (l : list calibration) :
  forallb plain (map dimension_dict l) = true.
Proof. induction l as [|c l IH]; [reflexivity | exact IH]. Qed.

Lemma plain_calibrations_tail (b : bool) (cals : list calibration) (ic : option calibration) :
  plain (TDict (calibrations_tail b cals ic)) = true.
Proof.
  destruct b, ic; cbn [calibrations_tail plain forallb fst snd]; try reflexivity;
    rewrite forallb_plain_dimension_dicts; reflexivity.
Qed.

Lemma plain_document (dd meta : tag) :
  plain (document dd meta) = plain dd && plain meta.
Proof.
  unfold document. cbn [plain forallb fst snd].
  destruct (plain dd), (plain meta); reflexivity.
Qed.

(** Reading the [Dimension] entries [save_image] wrote gives the triples of
    the calibrations. *)
Lemma read_dimension_dicts (l : list calibration) :
  mapM (fun dimension =>
          o <- getitem dimension "Origin" ;;
          s <- getitem dimension "Scale" ;;
          u <- getitem dimension "Units" ;;
          Ok (o, s, u)) (map dimension_dict l)
  = Ok (map cal_triple l).
Proof. induction l as [|c l IH]; [reflexivity |]. cbn [map mapM]. now rewrite IH. Qed.

(** * Claims *)

(** C9 (metadata normalisation).  [fix_strings] replaces every
    [array.array] met through dict keys other than ["Data"] (and list items)
    by the text its bytes decode to as UTF-16, keeps the whole value under a
    key ["Data"] as it is, and leaves every other kind of value unchanged.
    When it fails, it is because such an array does not decode. *)
Theorem fix_strings_normalizes (t : tag) :
  match fix_strings t with
  | Ok t' =>
      (forall p tc items, normal_path p -> subtree t p = Some (TArray tc items) ->
         exists s, utf16_decode (array_tostring tc items) = Some s /\
                   subtree t' p = Some (TStr s)) /\
      (forall p v, normal_path p -> subtree t (p ++ [PKey "Data"]) = Some v ->
         subtree t' (p ++ [PKey "Data"]) = Some v) /\
      (forall p v, normal_path p -> subtree t p = Some v -> other_kind v = true ->
         subtree t' p = Some v)
  | Err e =>
      e = UnicodeDecodeError /\
      exists tc items, reached t (TArray tc items) /\
                       utf16_decode (array_tostring tc items) = None
  end.
Proof.
  destruct (fix_strings t) as [t'|e] eqn:Hf; [| exact (fix_strings_err t e Hf)].
  split; [| split].
  - intros p tc items Hp Hs.
    destruct (fix_strings_path p Hp t t' _ Hf Hs) as (v' & Hv' & Hfv).
    simpl in Hfv. destruct (utf16_decode (array_tostring tc items)) as [s|]; [| discriminate].
    inversion Hfv; subst. eauto.
  - intros p v Hp Hs. rewrite subtree_app in Hs |- *.
    destruct (subtree t p) as [w|] eqn:Hw; [| discriminate].
    destruct (fix_strings_path p Hp t t' _ Hf Hw) as (w' & Hw' & Hfw). rewrite Hw'.
    destruct w; try discriminate Hs. simpl in Hs.
    destruct (assoc_get "Data" kvs) as [v0|] eqn:Hg; [| discriminate]. inversion Hs; subst v0.
    rewrite fix_strings_dict in Hfw.
    destruct (mapM fix_entry kvs) as [kvs'|e] eqn:Hm; [| discriminate].
    simpl in Hfw. inversion Hfw; subst w'.
    destruct (mapM_fix_entry_get _ _ _ _ Hm Hg) as (v' & Hg' & Hv). simpl in Hv.
    inversion Hv; subst v'. simpl. now rewrite Hg'.
  - intros p v Hp Hs Ho.
    destruct (fix_strings_path p Hp t t' _ Hf Hs) as (v' & Hv' & Hfv).
    destruct v; try discriminate Ho; simpl in Hfv; inversion Hfv; subst; exact Hv'.
Qed.

(** C2 (Dimensions law).  For a well-formed array of shape [(d0,...,dn-1)],
    the node [ndarray_to_imagedatadict] builds has [Dimensions] equal to the
    reversed shape, and [imagedatadict_to_ndarray] of that node has the
    shape [(d0,...,dn-1)] and the flat elements in the same order, position
    by position: each is the element as [array.array] stores it, which is
    the element itself for every dtype but float32 (a float32 signalling NaN
    comes back quiet).  No node is built for an element type the registry
    does not hold. *)
Theorem dimensions_law (a : ndarray) :
  wf_ndarray a ->
  match ndarray_to_imagedatadict a with
  | Ok node =>
      getitem node "Dimensions"
        = Ok (TList (map (fun d => TInt (Z.of_nat d)) (rev (arr_shape a)))) /\
      exists b, imagedatadict_to_ndarray node = Ok b /\
                arr_shape b = arr_shape a /\
                arr_data b = map (stored_elem (arr_dtype a)) (arr_data a) /\
                (arr_dtype a <> Float32 -> arr_data b = arr_data a)
  | Err _ => supported_dtype (arr_dtype a) = false
  end.
Proof.
  intros Hwf.
  destruct (supported_dtype (arr_dtype a)) eqn:Hsup.
  - destruct (imagedata_roundtrip a Hwf Hsup) as (node & Hn & Hd & Hr).
    rewrite Hn. split; [exact Hd |]. exists (stored_ndarray a).
    split; [exact Hr |]. split; [reflexivity | split; [reflexivity |]].
    intros Ht. now rewrite stored_ndarray_not_f32.
  - unfold ndarray_to_imagedatadict, dm_type_of.
    unfold supported_dtype in Hsup.
    destruct (first_code (arr_dtype a) dm_image_dtypes); [discriminate | reflexivity].
Qed.

Lemma dimensions_law_witness :
  wf_ndarray sample_int16 /\
  match ndarray_to_imagedatadict sample_int16 with
  | Ok node =>
      getitem node "Dimensions"
        = Ok (TList (map (fun d => TInt (Z.of_nat d)) (rev (arr_shape sample_int16)))) /\
      exists b, imagedatadict_to_ndarray node = Ok b /\
                arr_shape b = arr_shape sample_int16 /\
                arr_data b = map (stored_elem (arr_dtype sample_int16)) (arr_data sample_int16) /\
                (arr_dtype sample_int16 <> Float32 -> arr_data b = arr_data sample_int16)
  | Err _ => supported_dtype (arr_dtype sample_int16) = false
  end.
Proof.
  assert (Hwf : wf_ndarray sample_int16)
    by (split; [reflexivity | repeat constructor; simpl; lia]).
  split; [exact Hwf | exact (dimensions_law sample_int16 Hwf)].
Defined.

(** C8 (structured adapter exactness).  A complex64 or complex128 array is
    written as a [structarray] of two equal field typecodes holding each
    element's real bytes then imaginary bytes, and reading that node gives
    back the same array, bit pattern for bit pattern (zero, negative and NaN
    components are just bit patterns here). *)
Theorem structured_adapter_exact (a : ndarray) :
  is_complex (arr_dtype a) = true -> wf_ndarray a ->
  exists node c,
    ndarray_to_imagedatadict a = Ok node /\
    getitem node "Data" = Ok (TStruct [c; c] (ndarray_bytes a)) /\
    structarray_lookup [c; c] structarray_to_np_map = Some (arr_dtype a) /\
    imagedatadict_to_ndarray node = Ok a.
Proof.
  destruct a as [t s data]; intros Hc [Hlen Hok]; cbn [arr_dtype arr_shape arr_data] in *.
  destruct t; try discriminate Hc.
  - edestruct (complex_roundtrip Complex64 s data) as [H1 H2];
      [reflexivity | reflexivity | reflexivity | reflexivity | exact Hok | exact Hlen |].
    do 2 eexists. split; [exact H1 | split; [reflexivity | split; [reflexivity | exact H2]]].
  - edestruct (complex_roundtrip Complex128 s data) as [H1 H2];
      [reflexivity | reflexivity | reflexivity | reflexivity | exact Hok | exact Hlen |].
    do 2 eexists. split; [exact H1 | split; [reflexivity | split; [reflexivity | exact H2]]].
Qed.

Lemma structured_adapter_exact_witness :
  is_complex (arr_dtype sample_c64) = true /\ wf_ndarray sample_c64 /\
  exists node c,
    ndarray_to_imagedatadict sample_c64 = Ok node /\
    getitem node "Data" = Ok (TStruct [c; c] (ndarray_bytes sample_c64)) /\
    structarray_lookup [c; c] structarray_to_np_map = Some (arr_dtype sample_c64) /\
    imagedatadict_to_ndarray node = Ok sample_c64.
Proof.
  assert (Hwf : wf_ndarray sample_c64)
    by (split; [reflexivity | repeat constructor; simpl; lia]).
  split; [reflexivity | split; [exact Hwf |]].
  exact (structured_adapter_exact sample_c64 eq_refl Hwf).
Defined.

(** ** TypeRegistry lemmas *)

Lemma dtype_eqb_eq (a b : dtype) : dtype_eqb a b = true <-> a = b.
Proof. split; [destruct a, b; simpl; congruence | intros ->; apply dtype_eqb_refl]. Qed.

Lemma first_code_some (t : dtype) (tbl : list (Z * (string * dtype))) (k : Z) :
  first_code t tbl = Some k <->
  exists pre nm post, tbl = pre ++ (k, (nm, t)) :: post /\
                      Forall (fun e => snd (snd e) <> t) pre.
Proof.
  induction tbl as [|[k0 [nm0 t0]] tbl IH]; simpl.
  - split; [discriminate |]. intros (pre & nm & post & H & _).
    destruct pre; discriminate.
  - destruct (dtype_eqb t0 t) eqn:E.
    + apply dtype_eqb_eq in E; subst t0. split.
      * intros H; inversion H; subst. exists [], nm0, tbl. auto.
      * intros (pre & nm & post & H & Hf). destruct pre as [|e pre].
        -- inversion H; subst. reflexivity.
        -- inversion H; subst. inversion Hf; subst. simpl in *. congruence.
    + assert (Hne : t0 <> t) by (intro; subst; rewrite dtype_eqb_refl in E; discriminate).
      rewrite IH. split.
      * intros (pre & nm & post & H & Hf). exists ((k0, (nm0, t0)) :: pre), nm, post.
        subst. auto.
      * intros (pre & nm & post & H & Hf). destruct pre as [|e pre].
        -- inversion H; subst. congruence.
        -- inversion H; subst. inversion Hf; subst. eauto.
Qed.

Lemma first_code_none (t : dtype) (tbl : list (Z * (string * dtype))) :
  first_code t tbl = None <-> forall k nm, ~ In (k, (nm, t)) tbl.
Proof.
  induction tbl as [|[k0 [nm0 t0]] tbl IH]; simpl.
  - split; auto.
  - destruct (dtype_eqb t0 t) eqn:E.
    + apply dtype_eqb_eq in E; subst t0. split; [discriminate |].
      intros H. exfalso. apply (H k0 nm0). auto.
    + rewrite IH. split.
      * intros H k nm [Heq|Hin]; [| exact (H k nm Hin)].
        inversion Heq; subst. rewrite dtype_eqb_refl in E. discriminate.
      * intros H k nm Hin. apply (H k nm). auto.
Qed.

(** C6 (reverse lookup).  The [DataType] chosen for an element type is the
    first code, in the table's declaration order, whose element type it is
    ([StopIteration] when there is none); every [int8] array gets code 6;
    and looking a code's element type up again need not give the code back. *)
Theorem reverse_lookup_first_match :
  (forall t k, dm_type_of t = Ok k <->
     exists pre nm post, dm_image_dtypes = pre ++ (k, (nm, t)) :: post /\
                         Forall (fun e => snd (snd e) <> t) pre) /\
  (forall t, dm_type_of t = Err StopIteration <->
     forall k nm, ~ In (k, (nm, t)) dm_image_dtypes) /\
  (forall s data,
     match ndarray_to_imagedatadict (mk_ndarray Int8 s data) with
     | Ok node => getitem node "DataType" = Ok (TInt 6)
     | Err e => e = TypeError
     end) /\
  (exists code nm t, code_get code dm_image_dtypes = Some (nm, t) /\ dm_type_of t <> Ok code).
Proof.
  split; [| split; [| split]].
  - intros t k. unfold dm_type_of. rewrite <- first_code_some.
    destruct (first_code t dm_image_dtypes); simpl; split; congruence.
  - intros t. unfold dm_type_of. rewrite <- first_code_none.
    destruct (first_code t dm_image_dtypes); simpl; split; congruence.
  - intros s data. unfold ndarray_to_imagedatadict. cbn -[mapM].
    destruct (mapM _ data) as [items|e] eqn:Hm; [reflexivity |].
    destruct (mapM_err _ _ _ Hm) as ([b|re im] & _ & Hx); simpl in Hx; congruence.
  - exists 9, "int8"%string, Int8. split; [reflexivity | discriminate].
Qed.

(** C5, as stated: a [PixelDepth] that disagrees with the width of the
    element type of [DataType] makes [imagedatadict_to_ndarray] fail at the
    [PixelDepth] assertion.  False: when the data's element type also
    disagrees with [DataType], the earlier [DataType] assertion fails
    first. *)
Lemma pixel_depth_mismatch_counterexample :
  ~ (forall imd dtv nm t pdv,
       getitem imd "DataType" = Ok dtv -> dm_image_dtypes_getitem dtv = Ok (nm, t) ->
       getitem imd "PixelDepth" = Ok pdv -> py_eq_int pdv (Z.of_nat (itemsize t)) = false ->
       imagedatadict_to_ndarray imd = Err (AssertionError AssertPixelDepth)).
Proof.
  intros H.
  specialize (H float32_under_code_12 (TInt 12) "float64"%string Float64 (TInt 4)
                eq_refl eq_refl eq_refl eq_refl).
  vm_compute in H. discriminate H.
Qed.

(** C5, amended.  A [PixelDepth] that disagrees with the width of the
    element type of [DataType] always makes [imagedatadict_to_ndarray] fail,
    with no array returned.  When [Data] decodes to that element type, the
    failure is the [PixelDepth] assertion; when it decodes to another one,
    it is the [DataType] assertion, checked first. *)
Theorem pixel_depth_mismatch_fails (imd dtv pdv : tag) (nm : string) (t : dtype) :
  getitem imd "DataType" = Ok dtv -> dm_image_dtypes_getitem dtv = Ok (nm, t) ->
  getitem imd "PixelDepth" = Ok pdv -> py_eq_int pdv (Z.of_nat (itemsize t)) = false ->
  exists e,
    imagedatadict_to_ndarray imd = Err e /\
    (forall arr im, getitem imd "Data" = Ok arr -> decode_image_data arr = Ok (Some im) ->
       arr_dtype im = t -> e = AssertionError AssertPixelDepth) /\
    (forall arr im, getitem imd "Data" = Ok arr -> decode_image_data arr = Ok (Some im) ->
       arr_dtype im <> t -> e = AssertionError AssertDType).
Proof.
  intros Hdt Hget Hpd Hne. unfold imagedatadict_to_ndarray.
  destruct (getitem imd "Data") as [arr|e] eqn:Hd; simpl;
    [| exists e; split; [reflexivity | split; intros; discriminate]].
  destruct (decode_image_data arr) as [im|e] eqn:Hdec; simpl;
    [| exists e; split; [reflexivity | split; intros ? ? Ha Hb; inversion Ha; subst; congruence]].
  rewrite Hdt. simpl. rewrite Hget. simpl.
  destruct im as [im|]; simpl;
    [| exists AttributeError; split; [reflexivity | split; intros ? ? Ha Hb; inversion Ha;
                                                    subst; congruence]].
  destruct (dtype_eqb t (arr_dtype im)) eqn:Heq; simpl.
  - apply dtype_eqb_eq in Heq. rewrite Hpd. simpl. rewrite <- Heq, Hne. simpl.
    eexists; split; [reflexivity |].
    split; [reflexivity |].
    intros arr' im' Ha Hb Hc. inversion Ha; inversion Hb; subst. congruence.
  - eexists; split; [reflexivity |]. split.
    + intros arr' im' Ha Hb Hc. inversion Ha; subst. rewrite Hdec in Hb.
      inversion Hb; subst. rewrite dtype_eqb_refl in Heq. discriminate.
    + reflexivity.
Qed.

Lemma pixel_depth_mismatch_fails_witness :
  exists e,
    imagedatadict_to_ndarray pixel_depth_8_float32 = Err e /\
    (forall arr im, getitem pixel_depth_8_float32 "Data" = Ok arr ->
       decode_image_data arr = Ok (Some im) -> arr_dtype im = Float32 ->
       e = AssertionError AssertPixelDepth) /\
    (forall arr im, getitem pixel_depth_8_float32 "Data" = Ok arr ->
       decode_image_data arr = Ok (Some im) -> arr_dtype im <> Float32 ->
       e = AssertionError AssertDType).
Proof.
  apply (pixel_depth_mismatch_fails pixel_depth_8_float32 (TInt 2) (TInt 8)
           "float32"%string Float32); vm_compute; reflexivity.
Defined.

(** ** Calibration injection *)

Lemma subtree_document_dimension (dd meta : tag) :
  subtree (document dd meta) dimension_path
  = subtree dd [PKey "Calibrations"; PKey "Dimension"]%string.
Proof. reflexivity. Qed.

(** C7 (calibration-count policy).  Saving a well-formed array of a
    supported dtype to a stream raises nothing of its own: the document is
    built without error, whatever the calibrations, and the save's outcome
    is the codec's encoding of it (which fails only if the codec fails).
    When the axis calibrations
    are empty or their number differs from the rank, the document holds no
    [Dimension] list under [ImageList[0].ImageData.Calibrations]; when their
    number is the rank, it holds one entry per calibration, in reversed axis
    order. *)
Theorem calibration_count_policy (c : codec) (fs : filesystem (stream c)) (a : ndarray)
    (cals : list calibration) (ic : option calibration) (meta : tag) (s0 : stream c) :
  wf_ndarray a -> supported_dtype (arr_dtype a) = true ->
  exists doc,
    save_image_tree a cals ic meta = Ok doc /\
    save_image c fs a cals ic meta (FStream s0) = (encode_tree c doc, fs) /\
    (cals = [] \/ List.length cals <> List.length (arr_shape a) ->
       subtree doc dimension_path = None) /\
    (cals <> [] -> List.length cals = List.length (arr_shape a) ->
       subtree doc dimension_path = Some (TList (map dimension_dict (rev cals)))).
Proof.
  intros Hwf Hsup.
  destruct (imagedata_node a Hwf Hsup) as (kvs & Hn & Hnc & _ & _).
  pose proof (save_image_tree_document a cals ic meta kvs Hn Hnc) as Hd.
  eexists; split; [exact Hd |].
  split; [unfold save_image; rewrite Hd; reflexivity |].
  rewrite subtree_document_dimension. cbn [subtree]. rewrite assoc_get_app, Hnc.
  split.
  - intros Hc.
    assert (Hw : writes_dimensions a cals = false).
    { unfold writes_dimensions. destruct Hc as [->|Hc]; [reflexivity |].
      rewrite (proj2 (Nat.eqb_neq _ _) Hc), andb_false_r. reflexivity. }
    rewrite Hw. destruct ic; reflexivity.
  - intros Hne Hlen.
    assert (Hw : writes_dimensions a cals = true).
    { unfold writes_dimensions. rewrite Hlen, Nat.eqb_refl, andb_true_r.
      destruct cals; [congruence | reflexivity]. }
    rewrite Hw. destruct ic; reflexivity.
Qed.

Lemma calibration_count_policy_witness :
  wf_ndarray sample_int16 /\ supported_dtype (arr_dtype sample_int16) = true /\
  exists doc,
    save_image_tree sample_int16 [mk_calibration 0 one_bits []] None (TDict []) = Ok doc /\
    save_image tree_codec [] sample_int16 [mk_calibration 0 one_bits []] None (TDict [])
      (FStream None) = (encode_tree tree_codec doc, []) /\
    ([mk_calibration 0 one_bits []] = [] \/
     List.length [mk_calibration 0 one_bits []] <> List.length (arr_shape sample_int16) ->
       subtree doc dimension_path = None) /\
    ([mk_calibration 0 one_bits []] <> [] ->
     List.length [mk_calibration 0 one_bits []] = List.length (arr_shape sample_int16) ->
       subtree doc dimension_path
       = Some (TList (map dimension_dict (rev [mk_calibration 0 one_bits []])))).
Proof.
  assert (Hwf : wf_ndarray sample_int16)
    by (split; [reflexivity | repeat constructor; simpl; lia]).
  split; [exact Hwf | split; [reflexivity |]].
  exact (calibration_count_policy tree_codec [] sample_int16 [mk_calibration 0 one_bits []]
           None (TDict []) None Hwf eq_refl).
Defined.

(** ** Document selection *)

(** C4 (document selection).  When [ImageList] holds the entries
    [entries ++ [e]] (any number of entries before the last one), the
    result of loading is computed from the last entry alone: once
    [fix_strings] has normalised the document, it is [load_entry] of the
    normalised last entry, and the other entries only matter through a
    failure of [fix_strings]. *)
Theorem last_entry_selected (py_float : tag -> result Z) (kvs : list (string * tag))
    (entries : list tag) (e : tag) :
  assoc_get "ImageList" kvs = Some (TList (entries ++ [e])) ->
  match fix_strings (TDict kvs) with
  | Ok _ =>
      exists e', fix_strings e = Ok e' /\
                 load_image_tree py_float (TDict kvs) = load_entry py_float e'
  | Err err => load_image_tree py_float (TDict kvs) = Err err
  end.
Proof.
  intros Hl. unfold load_image_tree.
  destruct (fix_strings (TDict kvs)) as [d|err] eqn:Hf; [| reflexivity].
  pose proof Hf as Hf'. rewrite fix_strings_dict in Hf'.
  destruct (mapM fix_entry kvs) as [kvs'|err] eqn:Hm; [| discriminate].
  cbn [bind] in Hf'. inversion Hf'; subst d.
  destruct (mapM_fix_entry_get _ _ _ _ Hm Hl) as (v' & Hg' & Hv0).
  assert (Hv : fix_strings (TList (entries ++ [e])) = Ok v') by exact Hv0.
  rewrite fix_strings_list in Hv.
  destruct (mapM fix_strings (entries ++ [e])) as [ys|err] eqn:Hm2; [| discriminate].
  cbn [bind] in Hv. inversion Hv; subst v'.
  destruct (mapM_app_last _ _ _ _ Hm2) as (ys0 & y & -> & Hy).
  exists y. split; [exact Hy |].
  cbn [bind getitem]. rewrite Hg'. cbn [of_option bind py_index_last].
  rewrite rev_app_distr. reflexivity.
Qed.

Lemma last_entry_selected_witness :
  assoc_get "ImageList" thumbnail_then_image
    = Some (TList ([TDict [("ImageData", TDict [("DataType", TInt 9); ("PixelDepth", TInt 1);
                                                ("Dimensions", TList [TInt 1]);
                                                ("Data", TArray "b"%char [7])])]] ++
                   [TDict [("ImageData", TDict [("DataType", TInt 1); ("PixelDepth", TInt 2);
                                                ("Dimensions", TList [TInt 1; TInt 2]);
                                                ("Data", TArray "h"%char [1; 2])]);
                           ("Name", TStr (str_text "full"))]]))%string /\
  match fix_strings (TDict thumbnail_then_image) with
  | Ok _ =>
      exists e', fix_strings
                   (TDict [("ImageData", TDict [("DataType", TInt 1); ("PixelDepth", TInt 2);
                                                ("Dimensions", TList [TInt 1; TInt 2]);
                                                ("Data", TArray "h"%char [1; 2])]);
                           ("Name", TStr (str_text "full"))])%string = Ok e' /\
                 load_image_tree float_of_number (TDict thumbnail_then_image)
                 = load_entry float_of_number e'
  | Err err => load_image_tree float_of_number (TDict thumbnail_then_image) = Err err
  end.
Proof.
  assert (Hl : assoc_get "ImageList" thumbnail_then_image
    = Some (TList ([TDict [("ImageData", TDict [("DataType", TInt 9); ("PixelDepth", TInt 1);
                                                ("Dimensions", TList [TInt 1]);
                                                ("Data", TArray "b"%char [7])])]] ++
                   [TDict [("ImageData", TDict [("DataType", TInt 1); ("PixelDepth", TInt 2);
                                                ("Dimensions", TList [TInt 1; TInt 2]);
                                                ("Data", TArray "h"%char [1; 2])]);
                           ("Name", TStr (str_text "full"))]]))%string)
    by reflexivity.
  split; [exact Hl | exact (last_entry_selected float_of_number _ _ _ Hl)].
Defined.

(** ** Voltage properties *)

(** C10 (voltage keys).  When [load_image] succeeds on an [ImageList] entry,
    the keys ["autostem"] and ["extra_high_tension"] of the returned
    properties are only there when [ImageTags.ImageScanned.EHT] exists and
    is truthy; when [ImageTags] exists and every [ImageScanned.EHT] value it
    holds is falsy ([0], [0.0], empty, ...), the properties are exactly
    [{"imported_properties": ImageTags}]. *)
Theorem voltage_keys_only_when_truthy (py_float : tag -> result Z) (image_tags : tag)
    (r : load_result) :
  load_entry py_float image_tags = Ok r ->
  ((assoc_get "autostem" (snd r) <> None \/ assoc_get "extra_high_tension" (snd r) <> None) ->
     exists tags scanned v,
       getitem image_tags "ImageTags" = Ok tags /\ getitem tags "ImageScanned" = Ok scanned /\
       getitem scanned "EHT" = Ok v /\ py_truthy v = true) /\
  (forall tags, getitem image_tags "ImageTags" = Ok tags ->
     (forall scanned v, getitem tags "ImageScanned" = Ok scanned ->
        getitem scanned "EHT" = Ok v -> py_truthy v = false) ->
     snd r = [("imported_properties", tags)])%string.
Proof.
  intros H. unfold load_entry in H.
  do 11 bind_ok H.
  destruct (contains image_tags "ImageTags") as [[|]|e] eqn:Ec; cbn [bind] in H;
    try discriminate H.
  - destruct (getitem image_tags "ImageTags") as [tags0|e] eqn:Et; cbn [bind] in H;
      [| discriminate H].
    destruct (get_default tags0 "ImageScanned" (TDict [])) as [scanned0|e] eqn:Es;
      cbn [bind] in H; [| discriminate H].
    destruct (get_default scanned0 "EHT" (TDict [])) as [v0|e] eqn:Ev0;
      cbn [bind] in H; [| discriminate H].
    destruct (py_truthy v0) eqn:Ev.
    + destruct (py_float v0) as [f|e]; cbn [bind] in H; [| discriminate H].
      inversion H; subst r. cbn [snd].
      assert (Hs : py_truthy scanned0 = true).
      { destruct scanned0; try discriminate Ev0; destruct kvs; try reflexivity.
        simpl in Ev0. inversion Ev0; subst. discriminate Ev. }
      assert (Hg5 : getitem tags0 "ImageScanned" = Ok scanned0)
        by (eapply get_default_truthy; [exact Es | reflexivity | exact Hs]).
      assert (Hg6 : getitem scanned0 "EHT" = Ok v0)
        by (eapply get_default_truthy; [exact Ev0 | reflexivity | exact Ev]).
      split.
      * intros _. exists tags0, scanned0, v0. auto.
      * intros tags Ht Hf. inversion Ht; subst tags.
        rewrite (Hf scanned0 v0 Hg5 Hg6) in Ev. discriminate.
    + inversion H; subst r. cbn [snd]. split.
      * intros [Hx|Hx]; exfalso; apply Hx; reflexivity.
      * intros tags Ht _. inversion Ht; subst. reflexivity.
  - inversion H; subst r. cbn [snd]. split.
    + intros [Hx|Hx]; exfalso; apply Hx; reflexivity.
    + intros tags Ht _. exfalso. exact (contains_false _ _ _ Ec Ht).
Qed.

Lemma voltage_keys_only_when_truthy_witness :
  exists r,
    load_entry float_of_number entry_eht_zero = Ok r /\
    ((assoc_get "autostem" (snd r) <> None \/
      assoc_get "extra_high_tension" (snd r) <> None) ->
       exists tags scanned v,
         getitem entry_eht_zero "ImageTags" = Ok tags /\
         getitem tags "ImageScanned" = Ok scanned /\
         getitem scanned "EHT" = Ok v /\ py_truthy v = true) /\
    (forall tags, getitem entry_eht_zero "ImageTags" = Ok tags ->
       (forall scanned v, getitem tags "ImageScanned" = Ok scanned ->
          getitem scanned "EHT" = Ok v -> py_truthy v = false) ->
       snd r = [("imported_properties", tags)])%string.
Proof.
  eexists. split; [vm_compute; reflexivity |].
  apply (voltage_keys_only_when_truthy float_of_number entry_eht_zero).
  vm_compute. reflexivity.
Defined.

(** ** Saving to a path *)

(** C3 (saving to a path).  [save_image] called with a path string raises
    [NameError] (the name [n] in [save_image(n, f)] is unbound), whatever the
    array, calibrations and metadata; the file at the path is left created
    and holding only what was there on opening for writing (nothing).  The
    same arguments with an open stream succeed: the path call is not the
    stream call. *)
Theorem save_image_path_name_error (c : codec) (fs : filesystem (stream c)) (a : ndarray)
    (cals : list calibration) (ic : option calibration) (meta : tag) (p : string) :
  save_image c fs a cals ic meta (FPath p) = (Err NameError, fs_write p (empty_stream c) fs) /\
  fs_read p (snd (save_image c fs a cals ic meta (FPath p))) = Some (empty_stream c) /\
  exists s, save_image tree_codec [] sample_int16 [] None (TDict []) (FStream None) = (Ok s, []).
Proof.
  split; [reflexivity |]. split; [apply fs_read_write |].
  eexists. vm_compute. reflexivity.
Qed.

(** ** Round trip through the file-level API *)




(** * Further properties of the code *)

(** ** UTF-16 text *)

Lemma byte_of_Z_Z_of_byte (b : byte) : byte_of_Z (Z_of_byte b) = b.
Proof.
  unfold byte_of_Z, Z_of_byte. pose proof (Byte.to_N_bounded b) as Hb.
  rewrite Z.mod_small by lia. rewrite N2Z.id, Byte.of_to_N. reflexivity.
Qed.

Lemma scalar_value_spec (c : Z) :
  scalar_value c = true <-> 0 <= c <= 1114111 /\ ~ (55296 <= c <= 57343).
Proof.
  unfold scalar_value.
  destruct (Z.leb_spec 0 c), (Z.leb_spec c 1114111), (Z.leb_spec 55296 c),
    (Z.leb_spec c 57343); simpl; split; intros Hc; try reflexivity; try discriminate;
    try lia; exfalso; lia.
Qed.

Lemma utf16_unit_le_unit (u : Z) :
  0 <= u < 65536 -> utf16_unit false (byte_of_Z u) (byte_of_Z (u / 256)) = u.
Proof.
  intros Hu. unfold utf16_unit. rewrite !Z_of_byte_of_Z.
  rewrite (Z.mod_small (u / 256)) by (split; [apply Z.div_pos | apply Z.div_lt_upper_bound]; lia).
  pose proof (Z.div_mod u 256). lia.
Qed.

Lemma leb_range_false (lo hi c : Z) :
  ~ (lo <= c <= hi) -> (lo <=? c) && (c <=? hi) = false.
Proof.
  intros H. destruct (Z.leb_spec lo c); [| reflexivity].
  destruct (Z.leb_spec c hi); [exfalso; lia | reflexivity].
Qed.

Lemma leb_range_true (lo hi c : Z) :
  lo <= c <= hi -> (lo <=? c) && (c <=? hi) = true.
Proof. intros H. apply andb_true_iff. split; apply Z.leb_le; lia. Qed.

Lemma utf16_units_encode (s : list Z) (bs : list byte) :
  utf16_encode_units s = Some bs -> utf16_units false bs = Some s.
Proof.
  revert bs; induction s as [|c s IH]; intros bs H; cbn [utf16_encode_units] in H.
  - injection H as <-; reflexivity.
  - destruct (scalar_value c) eqn:Hv; [| discriminate H]. cbn [negb] in H.
    apply scalar_value_spec in Hv. destruct Hv as [Hv1 Hv2].
    destruct (utf16_encode_units s) as [r|] eqn:E; [| destruct (c <? 65536); discriminate H].
    specialize (IH r eq_refl).
    destruct (Z.ltb_spec c 65536); cbn [option_map] in H.
    + assert (Hbs : utf16_le_unit c ++ r = bs) by congruence. subst bs.
      unfold utf16_le_unit. cbn [app utf16_units].
      rewrite utf16_unit_le_unit by lia.
      rewrite (leb_range_false 55296 56319 c) by lia.
      rewrite (leb_range_false 56320 57343 c) by lia.
      rewrite IH. reflexivity.
    + assert (Hc' : 0 <= c - 65536 < 1048576) by lia.
      pose proof (Z.div_mod (c - 65536) 1024 ltac:(lia)) as Hdm.
      assert (Hq : 0 <= (c - 65536) / 1024 < 1024)
        by (split; [apply Z.div_pos | apply Z.div_lt_upper_bound]; lia).
      assert (Hr : 0 <= (c - 65536) mod 1024 < 1024) by (apply Z.mod_pos_bound; lia).
      remember ((c - 65536) / 1024) as q eqn:Eq.
      remember ((c - 65536) mod 1024) as m eqn:Em.
      assert (Hbs : (utf16_le_unit (55296 + q) ++ utf16_le_unit (56320 + m)) ++ r = bs)
        by congruence. subst bs.
      unfold utf16_le_unit. cbn [app utf16_units].
      rewrite (utf16_unit_le_unit (55296 + q)) by lia.
      rewrite (utf16_unit_le_unit (56320 + m)) by lia.
      rewrite (leb_range_true 55296 56319 (55296 + q)) by lia.
      rewrite (leb_range_true 56320 57343 (56320 + m)) by lia.
      rewrite IH. cbn [option_map]. f_equal. f_equal. lia.
Qed.

Lemma utf16_encode_units_none (s : list Z) :
  utf16_encode_units s = None <-> existsb (fun c => negb (scalar_value c)) s = true.
Proof.
  induction s as [|c s IH]; cbn [utf16_encode_units existsb]; [split; discriminate |].
  destruct (scalar_value c); cbn [negb orb]; [| split; reflexivity].
  rewrite <- IH. destruct (c <? 65536), (utf16_encode_units s); cbn [option_map];
    split; congruence.
Qed.

Lemma array_tostring_bytes (bs : list byte) :
  array_tostring "B"%char (map Z_of_byte bs) = bs.
Proof.
  unfold array_tostring. change (typecode_size "B"%char) with 1%nat.
  induction bs as [|b bs IH]; [reflexivity |].
  change (le_bytes 1 (Z_of_byte b) ++ List.concat (map (le_bytes 1) (map Z_of_byte bs)) = b :: bs).
  rewrite IH. cbn [le_bytes app]. now rewrite byte_of_Z_Z_of_byte.
Qed.

(** [str_to_utf16_bytes] fails exactly on a text holding a surrogate code
    point (or a value that is no code point); otherwise Python's
    ["utf-16"] decoding of its bytes gives the text back, and so does
    [fix_strings] on an unsigned-byte [array.array] holding them. *)
Theorem str_to_utf16_bytes_roundtrip (s : list Z) :
  match str_to_utf16_bytes s with
  | Some bs =>
      utf16_decode bs = Some s /\
      fix_strings (TArray "B"%char (map Z_of_byte bs)) = Ok (TStr s)
  | None => existsb (fun c => negb (scalar_value c)) s = true
  end.
Proof.
  unfold str_to_utf16_bytes.
  destruct (utf16_encode_units s) as [bs|] eqn:E; cbn [option_map].
  - assert (Hd : utf16_decode ([xff; xfe] ++ bs) = Some s)
      by (cbn [app utf16_decode]; exact (utf16_units_encode s bs E)).
    split; [exact Hd |].
    cbn [fix_strings]. rewrite array_tostring_bytes, Hd. reflexivity.
  - apply utf16_encode_units_none. exact E.
Qed.

(** ** Normalised trees *)

Lemma fix_entry_key (kv kv' : string * tag) : fix_entry kv = Ok kv' -> fst kv' = fst kv.
Proof.
  destruct kv as [k v]; unfold fix_entry.
  destruct (if String.eqb k "Data" then Ok v else fix_strings v); cbn [bind];
    [intros H; inversion H; reflexivity | discriminate].
Qed.

Lemma mapM_fix_entry_keys (kvs kvs' : list (string * tag)) :
  mapM fix_entry kvs = Ok kvs' -> map fst kvs' = map fst kvs.
Proof.
  revert kvs'; induction kvs as [|kv r IH]; intros kvs' Hm; cbn [mapM] in Hm.
  - inversion Hm; reflexivity.
  - destruct (fix_entry kv) as [kv'|e] eqn:E; cbn [bind] in Hm; [| discriminate].
    destruct (mapM fix_entry r) as [r'|e] eqn:Er; cbn [bind] in Hm; [| discriminate].
    inversion Hm; subst. cbn [map]. rewrite (fix_entry_key _ _ E), (IH r' eq_refl).
    reflexivity.
Qed.

Lemma assoc_get_none_keys (k : string) (l1 l2 : list (string * tag)) :
  map fst l1 = map fst l2 -> assoc_get k l2 = None -> assoc_get k l1 = None.
Proof.
  revert l2; induction l1 as [|[k1 v1] r IH]; intros l2 Hk Hg; [reflexivity |].
  destruct l2 as [|[k2 v2] r2]; [discriminate |].
  cbn [map fst] in Hk. inversion Hk; subst k2. cbn [assoc_get] in Hg |- *.
  destruct (String.eqb k1 k); [discriminate | exact (IH r2 H1 Hg)].
Qed.

Lemma fix_strings_result_plain (t : tag) :
  forall t', fix_strings t = Ok t' -> plain t' = true.
Proof.
  induction t as [kvs IH|xs IH|tc items|tcs raw|z|b|s|b|] using tag_ind'; intros t' Hf;
    try (cbn [fix_strings] in Hf; inversion Hf; reflexivity).
  - rewrite fix_strings_dict in Hf.
    destruct (mapM fix_entry kvs) as [kvs'|e] eqn:Hm; cbn [bind] in Hf; [| discriminate].
    inversion Hf; subst t'. clear Hf. revert kvs' Hm.
    induction IH as [|[k v] r Hv _ IHr]; intros kvs' Hm; cbn [mapM] in Hm.
    + inversion Hm; reflexivity.
    + unfold fix_entry at 1 in Hm.
      destruct (String.eqb k "Data") eqn:Hk.
      * cbn [bind] in Hm.
        destruct (mapM fix_entry r) as [r'|e] eqn:Er; cbn [bind] in Hm; [| discriminate].
        inversion Hm; subst. cbn [plain forallb fst snd]. rewrite Hk. cbn [orb andb].
        exact (IHr r' eq_refl).
      * cbn [snd] in Hv.
        destruct (fix_strings v) as [v'|e] eqn:Ev; cbn [bind] in Hm; [| discriminate].
        destruct (mapM fix_entry r) as [r'|e] eqn:Er; cbn [bind] in Hm; [| discriminate].
        inversion Hm; subst. cbn [plain forallb fst snd]. rewrite (Hv v' eq_refl).
        rewrite orb_true_r. cbn [andb]. exact (IHr r' eq_refl).
  - rewrite fix_strings_list in Hf.
    destruct (mapM fix_strings xs) as [ys|e] eqn:Hm; cbn [bind] in Hf; [| discriminate].
    inversion Hf; subst t'. clear Hf. revert ys Hm.
    induction IH as [|v r Hv _ IHr]; intros ys Hm; cbn [mapM] in Hm.
    + inversion Hm; reflexivity.
    + destruct (fix_strings v) as [v'|e] eqn:Ev; cbn [bind] in Hm; [| discriminate].
      destruct (mapM fix_strings r) as [r'|e] eqn:Er; cbn [bind] in Hm; [| discriminate].
      inversion Hm; subst. cbn [plain forallb]. rewrite (Hv v' eq_refl).
      exact (IHr r' eq_refl).
  - cbn [fix_strings] in Hf. destruct (utf16_decode (array_tostring tc items));
      inversion Hf; reflexivity.
Qed.

(** ** UTF-16 of an odd number of bytes *)

Lemma utf16_units_odd (big : bool) (n : nat) (bs : list byte) :
  (List.length bs <= n)%nat -> Nat.odd (List.length bs) = true -> utf16_units big bs = None.
Proof.
  revert bs; induction n as [|n IH]; intros bs Hn Ho.
  - destruct bs; [discriminate Ho | cbn [List.length] in Hn; lia].
  - destruct bs as [|b1 [|b2 rest]]; [discriminate Ho | reflexivity |].
    cbn [List.length] in Hn, Ho. rewrite Nat.odd_succ_succ in Ho.
    cbn [utf16_units].
    destruct ((55296 <=? utf16_unit big b1 b2) && (utf16_unit big b1 b2 <=? 56319)).
    + destruct rest as [|b3 [|b4 rest']]; try reflexivity.
      destruct ((56320 <=? utf16_unit big b3 b4) && (utf16_unit big b3 b4 <=? 57343));
        [| reflexivity].
      cbn [List.length] in Hn, Ho. rewrite Nat.odd_succ_succ in Ho.
      rewrite (IH rest') by (first [exact Ho | lia]). reflexivity.
    + destruct ((56320 <=? utf16_unit big b1 b2) && (utf16_unit big b1 b2 <=? 57343));
        [reflexivity |].
      rewrite (IH rest) by (first [exact Ho | lia]). reflexivity.
Qed.

Lemma utf16_decode_cases (bs : list byte) :
  utf16_decode bs = utf16_units false bs \/
  exists big rest, bs = xff :: xfe :: rest /\ utf16_decode bs = utf16_units big rest \/
                   bs = xfe :: xff :: rest /\ utf16_decode bs = utf16_units big rest.
Proof.
  destruct bs as [|b1 bs]; [left; reflexivity |].
  destruct b1; try (left; reflexivity); destruct bs as [|b2 rest]; try (left; reflexivity);
    destruct b2; try (left; reflexivity);
    right; eexists _, rest; first [left; split; reflexivity | right; split; reflexivity].
Qed.

(** [fix_strings] is idempotent: what it returns holds no [array.array]
    outside ["Data"] values, and normalising it again changes nothing. *)
Theorem fix_strings_idempotent (t t' : tag) :
  fix_strings t = Ok t' -> plain t' = true /\ fix_strings t' = Ok t'.
Proof.
  intros Hf. pose proof (fix_strings_result_plain t t' Hf) as Hp.
  split; [exact Hp | exact (fix_strings_plain t' Hp)].
Qed.

Lemma fix_strings_idempotent_witness :
  fix_strings (TDict [("Name", TArray "B"%char [255; 254; 65; 0]);
                      ("Data", TArray "b"%char [1])])%string
  = Ok (TDict [("Name", TStr [65]); ("Data", TArray "b"%char [1])])%string /\
  plain (TDict [("Name", TStr [65]); ("Data", TArray "b"%char [1])])%string = true /\
  fix_strings (TDict [("Name", TStr [65]); ("Data", TArray "b"%char [1])])%string
  = Ok (TDict [("Name", TStr [65]); ("Data", TArray "b"%char [1])])%string.
Proof.
  assert (H : fix_strings (TDict [("Name", TArray "B"%char [255; 254; 65; 0]);
                                  ("Data", TArray "b"%char [1])])%string
              = Ok (TDict [("Name", TStr [65]); ("Data", TArray "b"%char [1])])%string)
    by reflexivity.
  split; [exact H | exact (fix_strings_idempotent _ _ H)].
Defined.

(** An [array.array] outside ["Data"] whose bytes are odd in number cannot
    be decoded as UTF-16: [fix_strings] on it raises [UnicodeDecodeError]. *)
Theorem fix_strings_odd_bytes (tc : ascii) (items : list Z) :
  Nat.odd (List.length (array_tostring tc items)) = true ->
  fix_strings (TArray tc items) = Err UnicodeDecodeError.
Proof.
  intros Ho. cbn [fix_strings].
  set (bs := array_tostring tc items) in *.
  assert (Hd : utf16_decode bs = None).
  { destruct (utf16_decode_cases bs) as [->|(big & rest & [[Hb ->]|[Hb ->]])];
      [| rewrite Hb in Ho; cbn [List.length] in Ho; rewrite Nat.odd_succ_succ in Ho ..];
      eapply utf16_units_odd; eauto. }
  now rewrite Hd.
Qed.

Lemma fix_strings_odd_bytes_witness :
  Nat.odd (List.length (array_tostring "b"%char [1; 2; 3])) = true /\
  fix_strings (TArray "b"%char [1; 2; 3]) = Err UnicodeDecodeError.
Proof.
  assert (H : Nat.odd (List.length (array_tostring "b"%char [1; 2; 3])) = true)
    by reflexivity.
  split; [exact H | exact (fix_strings_odd_bytes _ _ H)].
Defined.

(** ** Loading a document without images *)

(** A document with no ["ImageList"] key makes [load_image] raise
    [KeyError], and one whose ["ImageList"] is an empty list makes it raise
    [IndexError] (unless normalising the metadata failed first). *)
Theorem load_image_tree_no_images (py_float : tag -> result Z) (kvs : list (string * tag)) :
  match assoc_get "ImageList" kvs with
  | None =>
      load_image_tree py_float (TDict kvs)
      = match fix_strings (TDict kvs) with Ok _ => Err KeyError | Err e => Err e end
  | Some (TList []) =>
      load_image_tree py_float (TDict kvs)
      = match fix_strings (TDict kvs) with Ok _ => Err IndexError | Err e => Err e end
  | Some _ => True
  end.
Proof.
  unfold load_image_tree.
  destruct (assoc_get "ImageList" kvs) as [v|] eqn:Hg; [destruct v as [| [|] | | | | | | |]; trivial |];
    (destruct (fix_strings (TDict kvs)) as [d|e] eqn:Hf; [| reflexivity]);
    pose proof Hf as Hf'; rewrite fix_strings_dict in Hf';
    (destruct (mapM fix_entry kvs) as [kvs'|e] eqn:Hm; cbn [bind] in Hf'; [| discriminate]);
    inversion Hf'; subst d; cbn [bind getitem].
  - destruct (mapM_fix_entry_get _ _ _ _ Hm Hg) as (v' & Hg' & Hv).
    cbn [String.eqb Ascii.eqb Bool.eqb] in Hv. cbn [fix_strings] in Hv. inversion Hv; subst v'.
    rewrite Hg'. reflexivity.
  - rewrite (assoc_get_none_keys _ _ _ (mapM_fix_entry_keys _ _ Hm) Hg). reflexivity.
Qed.

(** ** Reading an ImageData node *)

Lemma prod_shape_fill (q : nat) (dims : list Z) :
  prod_shape (map (fun z => if z =? -1 then q else Z.to_nat z) dims)
  = Nat.mul (prod_shape (map Z.to_nat (filter (fun z => negb (z =? -1)) dims)))
            (Nat.pow q (List.length (filter (Z.eqb (-1)) dims))).
Proof.
  induction dims as [|z r IH]; [reflexivity |].
  cbn [map filter]. rewrite (Z.eqb_sym (-1) z).
  destruct (z =? -1); cbn [negb prod_shape fold_right map List.length Nat.pow];
    fold (prod_shape (map (fun z => if z =? -1 then q else Z.to_nat z) r));
    fold (prod_shape (map Z.to_nat (filter (fun z => negb (z =? -1)) r)));
    rewrite IH; nia.
Qed.

(** numpy's [reshape] keeps the number of elements. *)
Lemma resolve_shape_prod (n : nat) (dims : list Z) (s : list nat) :
  resolve_shape n dims = Ok s -> prod_shape s = n.
Proof.
  unfold resolve_shape. destruct (existsb (fun z => z <? -1) dims); [discriminate |].
  destruct (List.length (filter (Z.eqb (-1)) dims)) as [|[|k]] eqn:Hc.
  - destruct (Nat.eqb_spec (prod_shape (map Z.to_nat dims)) n); [| discriminate].
    intros H; inversion H; subst; reflexivity.
  - set (known := prod_shape (map Z.to_nat (filter (fun z => negb (z =? -1)) dims))).
    destruct (Nat.eqb_spec known 0%nat); [discriminate |].
    destruct (Nat.eqb_spec (Nat.modulo n known) 0%nat) as [Hm|]; [| discriminate].
    intros H; inversion H; subst s.
    rewrite prod_shape_fill, Hc. fold known. rewrite Nat.pow_1_r.
    pose proof (Nat.div_mod_eq n known). lia.
  - discriminate.
Qed.

Lemma reshape_ok (im im' : ndarray) (sh : tag) :
  reshape im sh = Ok im' ->
  arr_dtype im' = arr_dtype im /\ arr_data im' = arr_data im /\
  prod_shape (arr_shape im') = List.length (arr_data im).
Proof.
  unfold reshape. intros H. bind_ok H. bind_ok H. inversion H; subst im'. cbn.
  split; [reflexivity | split; [reflexivity |]]. exact (resolve_shape_prod _ _ _ E0).
Qed.

Lemma mapM_as_int_ints (zs : list Z) : mapM as_int (map TInt zs) = Ok zs.
Proof. induction zs as [|z zs IH]; cbn [map mapM]; [reflexivity | now rewrite IH]. Qed.

Lemma resolve_shape_nonneg (n : nat) (zs : list Z) (s : list nat) :
  Forall (fun z => 0 <= z) zs -> resolve_shape n zs = Ok s -> s = map Z.to_nat zs.
Proof.
  intros Hz. unfold resolve_shape.
  assert (H1 : existsb (fun z => z <? -1) zs = false).
  { induction Hz as [|z zs Hz _ IH]; [reflexivity |].
    cbn [existsb]. rewrite IH, orb_false_r. apply Z.ltb_ge. lia. }
  assert (H2 : filter (Z.eqb (-1)) zs = []).
  { clear H1. induction Hz as [|z zs Hz _ IH]; [reflexivity |].
    cbn [filter]. rewrite IH, (proj2 (Z.eqb_neq (-1) z)) by lia. reflexivity. }
  rewrite H1, H2. cbn [List.length].
  destruct (Nat.eqb _ n); [| discriminate]. intros H; inversion H; reflexivity.
Qed.

(** What [imagedatadict_to_ndarray] returns: the elements and dtype numpy
    built from [Data], a dtype that is the one [DataType] names in
    [dm_image_dtypes], a [PixelDepth] equal to its item size, as many
    elements as the shape holds, and, when [Dimensions] is a list of
    non-negative integers, the reverse of that list as the shape. *)
Theorem imagedatadict_to_ndarray_sound (imd : tag) (im : ndarray) :
  imagedatadict_to_ndarray imd = Ok im ->
  (exists arr im0, getitem imd "Data" = Ok arr /\ decode_image_data arr = Ok (Some im0) /\
                   arr_dtype im = arr_dtype im0 /\ arr_data im = arr_data im0) /\
  (exists dt nm, getitem imd "DataType" = Ok dt /\
                 dm_image_dtypes_getitem dt = Ok (nm, arr_dtype im)) /\
  (exists pd, getitem imd "PixelDepth" = Ok pd /\
              py_eq_int pd (Z.of_nat (itemsize (arr_dtype im))) = true) /\
  prod_shape (arr_shape im) = List.length (arr_data im) /\
  (forall zs, getitem imd "Dimensions" = Ok (TList (map TInt zs)) ->
     Forall (fun z => 0 <= z) zs -> arr_shape im = rev (map Z.to_nat zs)).
Proof.
  unfold imagedatadict_to_ndarray. intros H.
  bind_ok H. rename a into arr, E into Harr.
  bind_ok H. rename a into oim, E into Hdec.
  bind_ok H. rename a into dt, E into Hdt.
  bind_ok H. rename a into entry, E into Hent.
  bind_ok H. rename a into im0, E into Him0.
  destruct oim as [im1|]; cbn [of_option] in Him0; [| discriminate]. inversion Him0; subst im1.
  bind_ok H. rename a into u1, E into Hty.
  unfold py_assert in Hty. destruct (dtype_eqb (snd entry) (arr_dtype im0)) eqn:Heq;
    [| discriminate]. apply dtype_eqb_eq in Heq.
  bind_ok H. rename a into pd, E into Hpd.
  bind_ok H. rename a into u2, E into Hpdc.
  unfold py_assert in Hpdc.
  destruct (py_eq_int pd (Z.of_nat (itemsize (arr_dtype im0)))) eqn:Hpe; [| discriminate].
  bind_ok H. rename a into dims, E into Hdims.
  bind_ok H. rename a into rdims, E into Hr.
  destruct (reshape_ok _ _ _ H) as (Hty' & Hdata & Hprod).
  split; [| split; [| split; [| split]]].
  - exists arr, im0. rewrite Hty', Hdata. auto.
  - destruct entry as [nm t]. cbn [snd] in Heq. subst t.
    exists dt, nm. rewrite Hty'. auto.
  - exists pd. rewrite Hty'. auto.
  - rewrite Hdata. exact Hprod.
  - intros zs Hz Hnn. injection Hz as ->.
    cbn [py_reverse] in Hr. injection Hr as <-.
    unfold reshape in H. rewrite <- map_rev, mapM_as_int_ints in H. cbn [bind] in H.
    destruct (resolve_shape _ _) as [s|e] eqn:Hs; cbn [bind] in H; [| discriminate].
    inversion H; subst im. cbn [arr_shape].
    rewrite (resolve_shape_nonneg _ _ _ (Forall_rev Hnn) Hs), map_rev.
    reflexivity.
Qed.

Lemma imagedatadict_to_ndarray_sound_witness :
  let imd := TDict [("Data", TArray "h"%char [1; 2; 3; 4; 5; 6]); ("DataType", TInt 1);
                    ("PixelDepth", TInt 2); ("Dimensions", TList [TInt 3; TInt 2])]%string in
  let im := mk_ndarray Int16 [2%nat; 3%nat] (map EScalar [1; 2; 3; 4; 5; 6]) in
  imagedatadict_to_ndarray imd = Ok im /\
  ((exists arr im0, getitem imd "Data" = Ok arr /\ decode_image_data arr = Ok (Some im0) /\
                    arr_dtype im = arr_dtype im0 /\ arr_data im = arr_data im0) /\
   (exists dt nm, getitem imd "DataType" = Ok dt /\
                  dm_image_dtypes_getitem dt = Ok (nm, arr_dtype im)) /\
   (exists pd, getitem imd "PixelDepth" = Ok pd /\
               py_eq_int pd (Z.of_nat (itemsize (arr_dtype im))) = true) /\
   prod_shape (arr_shape im) = List.length (arr_data im) /\
   (forall zs, getitem imd "Dimensions" = Ok (TList (map TInt zs)) ->
      Forall (fun z => 0 <= z) zs -> arr_shape im = rev (map Z.to_nat zs))).
Proof.
  intros imd im.
  assert (H : imagedatadict_to_ndarray imd = Ok im) by reflexivity.
  split; [exact H | exact (imagedatadict_to_ndarray_sound imd im H)].
Defined.

(** How [imagedatadict_to_ndarray] fails on its [Data] value: an
    [array.array] whose typecode numpy does not take as a dtype raises
    [TypeError]; a [structarray] whose field typecodes are not in
    [structarray_to_np_map] raises [KeyError], and one whose raw bytes are
    not a whole number of items raises [ValueError]; any other kind of value
    leaves [im] at [None], so the first use of [im.dtype] raises
    [AttributeError] once the [DataType] lookup went through. *)
Theorem imagedatadict_to_ndarray_data_errors (imd arr : tag) :
  getitem imd "Data" = Ok arr ->
  match arr with
  | TArray tc _ =>
      dtype_of_typecode tc = None -> imagedatadict_to_ndarray imd = Err TypeError
  | TStruct tcs raw =>
      match structarray_lookup tcs structarray_to_np_map with
      | None => imagedatadict_to_ndarray imd = Err KeyError
      | Some t =>
          Nat.modulo (List.length raw) (itemsize t) <> 0%nat ->
          imagedatadict_to_ndarray imd = Err ValueError
      end
  | _ =>
      imagedatadict_to_ndarray imd
      = (datatype <- getitem imd "DataType" ;;
         _ <- dm_image_dtypes_getitem datatype ;;
         Err AttributeError)
  end.
Proof.
  intros Hd. unfold imagedatadict_to_ndarray. rewrite Hd. cbn [bind].
  destruct arr; cbn [decode_image_data bind]; try reflexivity.
  - intros Hn. rewrite Hn. reflexivity.
  - destruct (structarray_lookup tcs structarray_to_np_map) as [t|]; cbn [of_option bind];
      [| reflexivity].
    intros Hm. unfold frombuffer.
    destruct (Nat.eqb_spec (Nat.modulo (List.length raw) (itemsize t)) 0); [contradiction |].
    reflexivity.
Qed.

Lemma imagedatadict_to_ndarray_data_errors_witness :
  let imd := TDict [("Data", TStruct ["d"; "f"]%char []); ("DataType", TInt 13);
                    ("PixelDepth", TInt 16); ("Dimensions", TList [TInt 0])]%string in
  getitem imd "Data" = Ok (TStruct ["d"; "f"]%char []) /\
  match structarray_lookup ["d"; "f"]%char structarray_to_np_map with
  | None => imagedatadict_to_ndarray imd = Err KeyError
  | Some t =>
      Nat.modulo (List.length (@nil byte)) (itemsize t) <> 0%nat ->
      imagedatadict_to_ndarray imd = Err ValueError
  end.
Proof.
  intros imd.
  assert (H : getitem imd "Data" = Ok (TStruct ["d"; "f"]%char [])) by reflexivity.
  split; [exact H | exact (imagedatadict_to_ndarray_data_errors imd _ H)].
Defined.

(** ** Saving to a stream *)

(** Saving a well-formed array to an open stream leaves the file system
    alone.  It raises [StopIteration] of its own, exactly when
    [dm_image_dtypes] has no code for the array's dtype; otherwise the tree
    is built without error and the outcome is the codec's: the stream it
    encodes the tree into, or the error it fails with. *)
Theorem save_image_stream_outcome (c : codec) (fs : filesystem (stream c)) (a : ndarray)
    (cals : list calibration) (ic : option calibration) (meta : tag) (s0 : stream c) :
  wf_ndarray a ->
  match save_image c fs a cals ic meta (FStream s0) with
  | (Ok s, fs') =>
      fs' = fs /\ supported_dtype (arr_dtype a) = true /\
      exists doc, save_image_tree a cals ic meta = Ok doc /\ encode_tree c doc = Ok s
  | (Err e, fs') =>
      fs' = fs /\
      ((e = StopIteration /\ supported_dtype (arr_dtype a) = false) \/
       (supported_dtype (arr_dtype a) = true /\
        exists doc, save_image_tree a cals ic meta = Ok doc /\ encode_tree c doc = Err e))
  end.
Proof.
  intros Hwf. destruct (supported_dtype (arr_dtype a)) eqn:Hsup.
  - destruct (imagedata_node a Hwf Hsup) as (kvs & Hn & Hnc & _ & _).
    pose proof (save_image_tree_document a cals ic meta kvs Hn Hnc) as Hd.
    unfold save_image. rewrite Hd.
    destruct (encode_tree c _) as [s|e] eqn:He; eauto 6.
  - unfold save_image, save_image_tree, ndarray_to_imagedatadict, dm_type_of.
    unfold supported_dtype in Hsup.
    destruct (first_code (arr_dtype a) dm_image_dtypes); [discriminate |].
    cbn [of_option bind]. auto.
Qed.

Lemma save_image_stream_outcome_witness :
  wf_ndarray (mk_ndarray UInt64 [1%nat] [EScalar 5]) /\
  match save_image tree_codec [] (mk_ndarray UInt64 [1%nat] [EScalar 5]) [] None (TDict [])
          (FStream None) with
  | (Ok s, fs') =>
      fs' = [] /\ supported_dtype (arr_dtype (mk_ndarray UInt64 [1%nat] [EScalar 5])) = true /\
      exists doc, save_image_tree (mk_ndarray UInt64 [1%nat] [EScalar 5]) [] None (TDict []) = Ok doc /\
                  encode_tree tree_codec doc = Ok s
  | (Err e, fs') =>
      fs' = [] /\
      ((e = StopIteration /\ supported_dtype (arr_dtype (mk_ndarray UInt64 [1%nat] [EScalar 5])) = false) \/
       (supported_dtype (arr_dtype (mk_ndarray UInt64 [1%nat] [EScalar 5])) = true /\
        exists doc, save_image_tree (mk_ndarray UInt64 [1%nat] [EScalar 5]) [] None (TDict []) = Ok doc /\
                    encode_tree tree_codec doc = Err e))
  end.
Proof.
  assert (Hwf : wf_ndarray (mk_ndarray UInt64 [1%nat] [EScalar 5]))
    by (split; [reflexivity | repeat constructor; simpl; lia]).
  split; [exact Hwf | exact (save_image_stream_outcome tree_codec [] _ [] None (TDict []) None Hwf)].
Defined.

(** ** Reading calibrations, title and properties *)

(** [load_image] falls back to the default intensity [(0.0, 1.0, '')] when
    the image has no [Brightness] calibration, and to no axis calibrations
    when it has no [Calibrations] at all; the title is the entry's [Name] or
    [None] when there is none; with no [ImageTags] the properties are
    empty. *)
Theorem load_entry_defaults (py_float : tag -> result Z) (image_tags : tag) (d : ndarray)
    (cals : list (tag * tag * tag)) (inten : tag * tag * tag) (title : tag)
    (props : list (string * tag)) :
  load_entry py_float image_tags = Ok (d, cals, inten, title, props) ->
  (forall imd, getitem image_tags "ImageData" = Ok imd ->
     getitem imd "Calibrations" = Err KeyError -> cals = [] /\ inten = default_intensity) /\
  (forall imd ct, getitem image_tags "ImageData" = Ok imd ->
     getitem imd "Calibrations" = Ok ct -> getitem ct "Brightness" = Err KeyError ->
     inten = default_intensity) /\
  (getitem image_tags "Name" = Ok title \/
   (getitem image_tags "Name" = Err KeyError /\ title = TNone)) /\
  (getitem image_tags "ImageTags" = Err KeyError -> props = []).
Proof.
  unfold load_entry. intros H.
  bind_ok H. rename a into imd0, E into Himd.
  bind_ok H. rename a into data, E into Hdata.
  bind_ok H. rename a into ct0, E into Hct.
  bind_ok H. rename a into dtags, E into Hdtags.
  bind_ok H. rename a into dims, E into Hdims.
  bind_ok H. rename a into cl, E into Hcl.
  bind_ok H. rename a into br, E into Hbr.
  bind_ok H. rename a into io, E into Hio.
  bind_ok H. rename a into is, E into His.
  bind_ok H. rename a into iu, E into Hiu.
  bind_ok H. rename a into ttl, E into Httl.
  bind_ok H. rename a into has_tags, E into Hhas.
  bind_ok H. rename a into props0, E into Hprops.
  injection H as <- <- <- <- <-.
  (* an absent [Brightness] gives the default triple *)
  assert (Hdef : getitem ct0 "Brightness" = Err KeyError -> (io, is, iu) = default_intensity).
  { intros Hb. destruct ct0; try discriminate Hb. cbn [getitem] in Hb.
    cbn [get_default] in Hbr. destruct (assoc_get "Brightness" kvs); [discriminate |].
    injection Hbr as <-. cbn [get_default assoc_get] in Hio, His, Hiu.
    injection Hio as <-. injection His as <-. injection Hiu as <-. reflexivity. }
  split; [| split; [| split]].
  - intros imd Himd' Hnc. injection Himd' as <-.
    destruct imd0; try discriminate Hnc. cbn [getitem] in Hnc. cbn [get_default] in Hct.
    destruct (assoc_get "Calibrations" kvs); [discriminate |]. injection Hct as <-.
    cbn [get_default assoc_get] in Hdtags. injection Hdtags as <-.
    cbn [py_iter] in Hdims. injection Hdims as <-. cbn [mapM] in Hcl. injection Hcl as <-.
    split; [reflexivity | apply Hdef; reflexivity].
  - intros imd ct Himd' Hc Hb. injection Himd' as <-.
    apply Hdef. destruct (get_default_cases _ _ _ _ Hct) as [Hg|[-> _]].
    + rewrite Hg in Hc. injection Hc as <-. exact Hb.
    + reflexivity.
  - destruct (get_default_cases _ _ _ _ Httl) as [Hg|[-> (kvs & -> & Hn)]]; [left; exact Hg |].
    right. cbn [getitem]. rewrite Hn. auto.
  - intros Hn. destruct image_tags; try discriminate Hn. cbn [getitem] in Hn.
    cbn [contains] in Hhas. destruct (assoc_get "ImageTags" kvs); [discriminate |].
    injection Hhas as <-. injection Hprops as <-. reflexivity.
Qed.

Lemma load_entry_defaults_witness :
  let image_tags :=
    TDict [("ImageData",
            TDict [("Data", TArray "h"%char [1; 2; 3; 4; 5; 6]); ("DataType", TInt 1);
                   ("PixelDepth", TInt 2); ("Dimensions", TList [TInt 3; TInt 2])])]%string in
  let d := mk_ndarray Int16 [2%nat; 3%nat] (map EScalar [1; 2; 3; 4; 5; 6]) in
  load_entry float_of_number image_tags = Ok (d, [], default_intensity, TNone, []) /\
  (forall imd, getitem image_tags "ImageData" = Ok imd ->
     getitem imd "Calibrations" = Err KeyError -> @nil (tag * tag * tag) = [] /\
     default_intensity = default_intensity) /\
  (forall imd ct, getitem image_tags "ImageData" = Ok imd ->
     getitem imd "Calibrations" = Ok ct -> getitem ct "Brightness" = Err KeyError ->
     default_intensity = default_intensity) /\
  (getitem image_tags "Name" = Ok TNone \/
   (getitem image_tags "Name" = Err KeyError /\ TNone = TNone)) /\
  (getitem image_tags "ImageTags" = Err KeyError -> @nil (string * tag) = []).
Proof.
  intros image_tags d.
  assert (H : load_entry float_of_number image_tags = Ok (d, [], default_intensity, TNone, []))
    by reflexivity.
  split; [exact H | exact (load_entry_defaults float_of_number image_tags _ _ _ _ _ H)].
Defined.

Lemma getitem_get_default (d : tag) (k : string) (def v : tag) :
  getitem d k = Ok v -> get_default d k def = Ok v.
Proof.
  destruct d; try discriminate. cbn [getitem get_default].
  destruct (assoc_get k kvs); cbn [of_option]; [exact id | discriminate].
Qed.

Lemma mapM_length {A B} (f : A -> result B) (xs : list A) (ys : list B) :
  mapM f xs = Ok ys -> List.length ys = List.length xs.
Proof.
  revert ys; induction xs as [|x xs IH]; intros ys Hm; cbn [mapM] in Hm.
  - injection Hm as <-. reflexivity.
  - destruct (f x); cbn [bind] in Hm; [| discriminate].
    destruct (mapM f xs) as [ys0|e] eqn:E; cbn [bind] in Hm; [| discriminate].
    injection Hm as <-. cbn [List.length]. now rewrite (IH ys0 eq_refl).
Qed.

(** When the image's [Calibrations.Dimension] is a list of [n] entries,
    [load_image] returns [n] axis calibrations: the [i]-th entry's
    [(Origin, Scale, Units)] is the calibration at position [n - 1 - i],
    since the stored list runs from the last axis to the first. *)
Theorem load_entry_calibrations (py_float : tag -> result Z) (image_tags : tag) (d : ndarray)
    (cals : list (tag * tag * tag)) (inten : tag * tag * tag) (title : tag)
    (props : list (string * tag)) (imd ct : tag) (xs : list tag) :
  load_entry py_float image_tags = Ok (d, cals, inten, title, props) ->
  getitem image_tags "ImageData" = Ok imd -> getitem imd "Calibrations" = Ok ct ->
  getitem ct "Dimension" = Ok (TList xs) ->
  List.length cals = List.length xs /\
  forall i dim, nth_error xs i = Some dim ->
    exists o s u, getitem dim "Origin" = Ok o /\ getitem dim "Scale" = Ok s /\
                  getitem dim "Units" = Ok u /\
                  nth_error cals (List.length xs - S i) = Some (o, s, u).
Proof.
  unfold load_entry. intros H Himd Hc Hd.
  rewrite Himd in H. cbn [bind] in H.
  bind_ok H. rename a into data, E into Hdata.
  rewrite (getitem_get_default _ _ _ _ Hc) in H. cbn [bind] in H.
  rewrite (getitem_get_default _ _ _ _ Hd) in H. cbn [bind py_iter] in H.
  bind_ok H. rename a into l, E into Hl.
  repeat (bind_ok H).
  injection H as _ <- _ _ _.
  pose proof (mapM_length _ _ _ Hl) as Hlen.
  split; [now rewrite length_rev |].
  intros i dim Hi.
  destruct (mapM_nth _ _ _ _ _ Hl Hi) as (y & Hy & Hf).
  cbv beta in Hf.
  destruct (getitem dim "Origin") as [o|e] eqn:Eo; cbn [bind] in Hf; [| discriminate Hf].
  destruct (getitem dim "Scale") as [sc|e] eqn:Es; cbn [bind] in Hf; [| discriminate Hf].
  destruct (getitem dim "Units") as [u|e] eqn:Eu; cbn [bind] in Hf; [| discriminate Hf].
  injection Hf as <-.
  exists o, sc, u. split; [reflexivity | split; [reflexivity | split; [reflexivity |]]].
  assert (Hil : (i < List.length xs)%nat) by (apply nth_error_Some; congruence).
  rewrite nth_error_rev, Hlen.
  destruct (Nat.ltb_spec (List.length xs - S i) (List.length xs)); [| lia].
  replace (List.length xs - S (List.length xs - S i))%nat with i by lia. exact Hy.
Qed.

Lemma load_entry_calibrations_witness :
  let dim1 := TDict [("Origin", TFloat 0); ("Scale", TFloat one_bits); ("Units", TStr [110; 109])]%string in
  let dim2 := TDict [("Origin", TFloat 5); ("Scale", TFloat 7); ("Units", TStr [])]%string in
  let ct := TDict [("Dimension", TList [dim1; dim2])]%string in
  let imd := TDict [("Data", TArray "h"%char [1; 2; 3; 4; 5; 6]); ("DataType", TInt 1);
                    ("PixelDepth", TInt 2); ("Dimensions", TList [TInt 3; TInt 2]);
                    ("Calibrations", ct)]%string in
  let image_tags := TDict [("ImageData", imd)]%string in
  let d := mk_ndarray Int16 [2%nat; 3%nat] (map EScalar [1; 2; 3; 4; 5; 6]) in
  let cals := [(TFloat 5, TFloat 7, TStr []); (TFloat 0, TFloat one_bits, TStr [110; 109])] in
  load_entry float_of_number image_tags = Ok (d, cals, default_intensity, TNone, []) /\
  getitem image_tags "ImageData" = Ok imd /\ getitem imd "Calibrations" = Ok ct /\
  getitem ct "Dimension" = Ok (TList [dim1; dim2]) /\
  (List.length cals = List.length [dim1; dim2] /\
   forall i dim, nth_error [dim1; dim2] i = Some dim ->
     exists o s u, getitem dim "Origin" = Ok o /\ getitem dim "Scale" = Ok s /\
                   getitem dim "Units" = Ok u /\
                   nth_error cals (List.length [dim1; dim2] - S i) = Some (o, s, u)).
Proof.
  intros dim1 dim2 ct imd image_tags d cals.
  assert (H1 : load_entry float_of_number image_tags = Ok (d, cals, default_intensity, TNone, []))
    by reflexivity.
  assert (H2 : getitem image_tags "ImageData" = Ok imd) by reflexivity.
  assert (H3 : getitem imd "Calibrations" = Ok ct) by reflexivity.
  assert (H4 : getitem ct "Dimension" = Ok (TList [dim1; dim2])) by reflexivity.
  split; [exact H1 | split; [exact H2 | split; [exact H3 | split; [exact H4 |]]]].
  exact (load_entry_calibrations float_of_number image_tags _ _ _ _ _ imd ct _ H1 H2 H3 H4).
Defined.

(** ** Saving then loading *)

(** With a lossless codec, when [save_image] writes a well-formed array of
    a supported dtype to a stream (the codec encodes the document), the file
    system is left as it was, and loading the stream gives back the array as
    [array.array] stores it (a float32 signalling NaN comes back quiet,
    every other element unchanged), the axis
    calibrations' triples only when [save_image] wrote them (a non-empty
    list with one calibration per axis), otherwise none, the intensity
    calibration's triple or the default [(0.0, 1.0, '')] when none was
    given, no title, and the metadata under ["imported_properties"]
    (metadata holding no [array.array] and no [ImageScanned] key). *)
Theorem save_load_calibrations (c : codec) (py_float : tag -> result Z)
    (fs : filesystem (stream c)) (a : ndarray) (cals : list calibration)
    (ic : option calibration) (mkvs : list (string * tag)) (s0 : stream c) (s : stream c)
    (fs' : filesystem (stream c)) :
  codec_lossless c -> wf_ndarray a -> supported_dtype (arr_dtype a) = true ->
  plain (TDict mkvs) = true -> assoc_get "ImageScanned" mkvs = None ->
  save_image c fs a cals ic (TDict mkvs) (FStream s0) = (Ok s, fs') ->
  fs' = fs /\
    load_image c py_float fs (FStream s)
    = Ok (stored_ndarray a, (if writes_dimensions a cals then map cal_triple cals else []),
          match ic with Some ic => cal_triple ic | None => default_intensity end,
          TNone, [("imported_properties"%string, TDict mkvs)]).
Proof.
  intros Hc Hwf Hsup Hp Hns Hsave.
  destruct (imagedata_node a Hwf Hsup) as (kvs & Hn & Hnc & Hpk & Hr).
  pose proof (save_image_tree_document a cals ic (TDict mkvs) kvs Hn Hnc) as Hd.
  set (w := writes_dimensions a cals) in *.
  set (dd := TDict (kvs ++ calibrations_tail w cals ic)) in Hd.
  unfold save_image in Hsave. rewrite Hd in Hsave.
  injection Hsave as Henc Hfs.
  split; [symmetry; exact Hfs |].
  unfold load_image. cbv zeta. rewrite (Hc _ _ Henc). cbn [bind].
  unfold load_image_tree.
  rewrite fix_strings_plain
    by (rewrite plain_document, Hp; unfold dd; rewrite plain_dict_app, Hpk,
          plain_calibrations_tail; reflexivity).
  cbn [bind].
  change (getitem (document dd (TDict mkvs)) "ImageList")
    with (Ok (TList [TDict [("ImageData", dd); ("ImageTags", TDict mkvs)]%string]) : result tag).
  cbn [bind py_index_last rev app].
  assert (Hdd : imagedatadict_to_ndarray dd = Ok (stored_ndarray a)).
  { unfold dd. rewrite <- Hr. apply imagedatadict_to_ndarray_ext.
    intros k Hk. rewrite assoc_get_app, assoc_get_calibrations_tail by exact Hk.
    destruct (assoc_get k kvs); reflexivity. }
  assert (Hcal : get_default dd "Calibrations" (TDict [])
                 = Ok (match calibrations_tail w cals ic with
                       | [(_, x)] => x
                       | _ => TDict []
                       end)).
  { unfold dd, get_default. rewrite assoc_get_app, Hnc.
    destruct w, ic; reflexivity. }
  unfold load_entry.
  change (getitem (TDict [("ImageData", dd); ("ImageTags", TDict mkvs)]%string) "ImageData")
    with (Ok dd : result tag).
  cbn [bind]. rewrite Hdd. cbn [bind]. rewrite Hcal.
  destruct w, ic as [ic|];
    cbn [calibrations_tail bind get_default assoc_get py_iter String.eqb Ascii.eqb Bool.eqb];
    rewrite ?read_dimension_dicts;
    cbn [bind get_default assoc_get contains getitem of_option String.eqb Ascii.eqb Bool.eqb
         dimension_dict dict_set assoc_set mapM];
    rewrite Hns; cbn [bind get_default assoc_get py_truthy];
    rewrite ?map_rev, ?rev_involutive; reflexivity.
Qed.

Lemma save_load_calibrations_witness :
  exists s,
    save_image tree_codec [] sample_int16 [mk_calibration 0 one_bits (str_text "nm")] None
      (TDict [("Note", TStr (str_text "x"))]%string) (FStream None) = (Ok s, []) /\
    (([] : filesystem (stream tree_codec)) = [] /\
     load_image tree_codec float_of_number [] (FStream s)
     = Ok (stored_ndarray sample_int16,
           (if writes_dimensions sample_int16 [mk_calibration 0 one_bits (str_text "nm")]
            then map cal_triple [mk_calibration 0 one_bits (str_text "nm")] else []),
           default_intensity, TNone,
           [("imported_properties", TDict [("Note", TStr (str_text "x"))])]))%string.
Proof.
  eexists. split; [vm_compute; reflexivity |].
  apply (save_load_calibrations tree_codec float_of_number [] sample_int16
           [mk_calibration 0 one_bits (str_text "nm")] None
           [("Note", TStr (str_text "x"))]%string None).
  - intros t s' H. injection H as <-. reflexivity.
  - split; [reflexivity | repeat constructor; simpl; lia].
  - reflexivity.
  - reflexivity.
  - reflexivity.
  - vm_compute. reflexivity.
Defined.

(** The document [save_image] writes for a well-formed array of a supported
    dtype holds the metadata as given at [ImageList[0].ImageTags], holds a
    [Brightness] calibration under [ImageList[0].ImageData.Calibrations]
    exactly when an intensity calibration is given (its offset, scale and
    units), and holds at [ImageList[0].ImageData] a node that reads back as
    the array as [array.array] stores it (a float32 signalling NaN comes
    back quiet, every other element unchanged), whatever the
    calibrations. *)
Theorem save_image_tree_layout (a : ndarray) (cals : list calibration)
    (ic : option calibration) (meta : tag) :
  wf_ndarray a -> supported_dtype (arr_dtype a) = true ->
  exists doc dd,
    save_image_tree a cals ic meta = Ok doc /\
    subtree doc [PKey "ImageList"; PIdx 0; PKey "ImageTags"]%string = Some meta /\
    subtree doc [PKey "ImageList"; PIdx 0; PKey "ImageData"; PKey "Calibrations";
                 PKey "Brightness"]%string = option_map dimension_dict ic /\
    subtree doc [PKey "ImageList"; PIdx 0; PKey "ImageData"]%string = Some dd /\
    imagedatadict_to_ndarray dd = Ok (stored_ndarray a).
Proof.
  intros Hwf Hsup.
  destruct (imagedata_node a Hwf Hsup) as (kvs & Hn & Hnc & _ & Hr).
  pose proof (save_image_tree_document a cals ic meta kvs Hn Hnc) as Hd.
  set (w := writes_dimensions a cals) in *.
  set (dd := TDict (kvs ++ calibrations_tail w cals ic)) in Hd.
  exists (document dd meta), dd.
  split; [exact Hd |]. split; [reflexivity |].
  split; [| split; [reflexivity |]].
  - change (subtree dd [PKey "Calibrations"; PKey "Brightness"]%string
            = option_map dimension_dict ic).
    unfold dd. cbn [subtree]. rewrite assoc_get_app, Hnc.
    destruct w, ic; reflexivity.
  - unfold dd. rewrite <- Hr. apply imagedatadict_to_ndarray_ext.
    intros k Hk. rewrite assoc_get_app, assoc_get_calibrations_tail by exact Hk.
    destruct (assoc_get k kvs); reflexivity.
Qed.

Lemma save_image_tree_layout_witness :
  wf_ndarray sample_int16 /\ supported_dtype (arr_dtype sample_int16) = true /\
  exists doc dd,
    save_image_tree sample_int16 [] (Some (mk_calibration 0 one_bits [])) (TDict []) = Ok doc /\
    subtree doc [PKey "ImageList"; PIdx 0; PKey "ImageTags"]%string = Some (TDict []) /\
    subtree doc [PKey "ImageList"; PIdx 0; PKey "ImageData"; PKey "Calibrations";
                 PKey "Brightness"]%string
      = option_map dimension_dict (Some (mk_calibration 0 one_bits [])) /\
    subtree doc [PKey "ImageList"; PIdx 0; PKey "ImageData"]%string = Some dd /\
    imagedatadict_to_ndarray dd = Ok (stored_ndarray sample_int16).
Proof.
  assert (Hwf : wf_ndarray sample_int16)
    by (split; [reflexivity | repeat constructor; simpl; lia]).
  split; [exact Hwf | split; [reflexivity |]].
  exact (save_image_tree_layout sample_int16 [] (Some (mk_calibration 0 one_bits [])) (TDict [])
           Hwf eq_refl).
Defined.

(** [fix_strings] keeps the shape of the tree: a dict comes back as a dict
    with the same keys in the same order, a list as a list of the same
    length, an [array.array] as text, and any other value unchanged. *)
Theorem fix_strings_shape (t t' : tag) :
  fix_strings t = Ok t' ->
  match t with
  | TDict kvs => exists kvs', t' = TDict kvs' /\ map fst kvs' = map fst kvs
  | TList xs => exists ys, t' = TList ys /\ List.length ys = List.length xs
  | TArray _ _ => exists s, t' = TStr s
  | _ => t' = t
  end.
Proof.
  intros Hf. destruct t; try (cbn [fix_strings] in Hf; injection Hf as <-; reflexivity).
  - rewrite fix_strings_dict in Hf.
    destruct (mapM fix_entry kvs) as [kvs'|e] eqn:Hm; cbn [bind] in Hf; [| discriminate].
    injection Hf as <-. exists kvs'. split; [reflexivity | exact (mapM_fix_entry_keys _ _ Hm)].
  - rewrite fix_strings_list in Hf.
    destruct (mapM fix_strings xs) as [ys|e] eqn:Hm; cbn [bind] in Hf; [| discriminate].
    injection Hf as <-. exists ys. split; [reflexivity | exact (mapM_length _ _ _ Hm)].
  - cbn [fix_strings] in Hf. destruct (utf16_decode (array_tostring tc items)) as [s|];
      [injection Hf as <-; eauto | discriminate].
Qed.

Lemma fix_strings_shape_witness :
  fix_strings (TDict [("Name", TArray "B"%char [255; 254; 65; 0]);
                      ("Data", TArray "b"%char [1])])%string
  = Ok (TDict [("Name", TStr [65]); ("Data", TArray "b"%char [1])])%string /\
  exists kvs', TDict [("Name", TStr [65]); ("Data", TArray "b"%char [1])]%string = TDict kvs' /\
               map fst kvs' = map fst [("Name", TArray "B"%char [255; 254; 65; 0]);
                                       ("Data", TArray "b"%char [1])]%string.
Proof.
  assert (H : fix_strings (TDict [("Name", TArray "B"%char [255; 254; 65; 0]);
                                  ("Data", TArray "b"%char [1])])%string
              = Ok (TDict [("Name", TStr [65]); ("Data", TArray "b"%char [1])])%string)
    by reflexivity.
  split; [exact H | exact (fix_strings_shape _ _ H)].
Defined.
